(** * AI Judge: the evaluation pipeline

    A shallow embedding of the evaluation pipeline of the AI Judge
    application: the provider adapters and their response parser
    ([app/lib/llm/providers]), the provider factory and the client registry
    ([app/lib/llm/provider-factory.ts], [app/lib/llm/client.ts]), the prompt
    builder ([app/lib/llm/prompt-builder.ts]), the evaluation executor
    ([app/lib/services/evaluation-executor.ts]) and the orchestrator
    ([app/lib/services/evaluation-orchestrator.ts]) with the rate limiter
    ([app/lib/services/rate-limiter.ts]).

    The program is TypeScript.  Strings are sequences of UTF-16 code units,
    values that come out of [JSON.parse] are untyped JavaScript values, and
    exceptions are modelled by a sum type. *)

From Stdlib Require Import List String Ascii NArith ZArith Bool Lia.
From Stdlib Require Import DecimalString Permutation.
Import ListNotations.

Set Implicit Arguments.
Set Warnings "-register-all".

(** ** JavaScript strings *)

Module Js.

(** A string is its sequence of UTF-16 code units. *)
Definition jsstring := list N.

(** Literals of the source are written [str "..."]. *)
Definition str (s : string) : jsstring :=
  map N_of_ascii (list_ascii_of_string s).

Fixpoint eqb (a b : jsstring) : bool :=
  match a, b with
  | [], [] => true
  | x :: a', y :: b' => N.eqb x y && eqb a' b'
  | _, _ => false
  end.

Definition is_empty (s : jsstring) : bool :=
  match s with [] => true | _ :: _ => false end.

(** [s.startsWith(p)] *)
Fixpoint startsWith (s p : jsstring) : bool :=
  match p, s with
  | [], _ => true
  | x :: p', y :: s' => N.eqb x y && startsWith s' p'
  | _ :: _, [] => false
  end.

(** [s.includes(p)] *)
Fixpoint includes (s p : jsstring) : bool :=
  startsWith s p || match s with [] => false | _ :: s' => includes s' p end.

(** [String.prototype.toLowerCase].  The letters A-Z move to a-z.  Two code
    units outside ASCII have a lower case inside ASCII: U+0130 becomes
    "i" followed by U+0307, and the Kelvin sign U+212A becomes "k".  Every
    other code unit that the Unicode tables change is mapped to a code unit
    outside ASCII; those are kept as they are, the program only searches the
    result for ASCII words. *)
Definition lower_unit (c : N) : jsstring :=
  if (65 <=? c)%N && (c <=? 90)%N then [(c + 32)%N]
  else if (c =? 304)%N then [105%N; 775%N]
  else if (c =? 8490)%N then [107%N]
  else [c].

Definition toLowerCase (s : jsstring) : jsstring := flat_map lower_unit s.

(** White space and line terminators, as [String.prototype.trim] strips them. *)
Definition is_trim_space (c : N) : bool :=
  existsb (N.eqb c)
    [9; 10; 11; 12; 13; 32; 160; 5760; 8232; 8233; 8239; 8287; 12288; 65279]%N
  || ((8192 <=? c)%N && (c <=? 8202)%N).

Fixpoint trim_start (s : jsstring) : jsstring :=
  match s with
  | c :: s' => if is_trim_space c then trim_start s' else s
  | [] => []
  end.

Definition trim (s : jsstring) : jsstring :=
  rev (trim_start (rev (trim_start s))).

(** [parts.join(sep)] *)
Fixpoint join (sep : jsstring) (parts : list jsstring) : jsstring :=
  match parts with
  | [] => []
  | [p] => p
  | p :: rest => p ++ sep ++ join sep rest
  end.

(** The suffix of [s] that starts at the first occurrence of [c]. *)
Fixpoint from_first (c : N) (s : jsstring) : option jsstring :=
  match s with
  | [] => None
  | x :: s' => if N.eqb x c then Some s else from_first c s'
  end.

(** The prefix of [s] that ends at the last occurrence of [c]. *)
Definition upto_last (c : N) (s : jsstring) : option jsstring :=
  option_map (@rev N) (from_first c (rev s)).

Lemma eqb_eq (a b : jsstring) : eqb a b = true <-> a = b.
Proof.
  revert b; induction a as [|x a IH]; intros [|y b]; simpl;
    try (split; (reflexivity || discriminate)).
  rewrite andb_true_iff, N.eqb_eq, IH.
  split; [intros [-> ->]; reflexivity | intros H; inversion H; auto].
Qed.

Lemma eqb_refl (a : jsstring) : eqb a a = true.
Proof. apply eqb_eq; reflexivity. Qed.

Lemma eqb_sym (a b : jsstring) : eqb a b = eqb b a.
Proof.
  destruct (eqb a b) eqn:H, (eqb b a) eqn:H'; try reflexivity.
  - apply eqb_eq in H. subst. now rewrite eqb_refl in H'.
  - apply eqb_eq in H'. subst. now rewrite eqb_refl in H.
Qed.

Lemma eqb_neq (a b : jsstring) : eqb a b = false <-> a <> b.
Proof.
  rewrite <- eqb_eq. destruct (eqb a b); split; congruence.
Qed.

End Js.

Import Js.

(** ** JavaScript values that come out of [JSON.parse] *)

(** A number, as its decimal literal denotes it:
    [(-1)^neg * digits * 10^exp10]. *)
Record number := Num { neg : bool; digits : N; exp10 : Z }.

(** A number is falsy when the double it rounds to is zero: the literal is a
    zero, or its magnitude is at most 2^-1075 (half of the smallest
    subnormal double, the tie going to the even neighbour, zero). *)
Definition number_is_zero (n : number) : bool :=
  (digits n =? 0)%N
  || ((exp10 n <? 0)%Z
      && (Z.of_N (digits n) * 2 ^ 1075 <=? 10 ^ (- exp10 n))%Z).

Inductive json :=
| JNull
| JBool (b : bool)
| JNumber (n : number)
| JString (s : jsstring)
| JArray (elements : list json)
| JObject (members : list (jsstring * json)).

(** ToBoolean *)
Definition truthy (v : json) : bool :=
  match v with
  | JNull => false
  | JBool b => b
  | JNumber n => negb (number_is_zero n)
  | JString s => negb (is_empty s)
  | JArray _ | JObject _ => true
  end.

(** [a || b], where [None] is [undefined]. *)
Definition js_or (a : option json) (b : json) : json :=
  match a with
  | Some v => if truthy v then v else b
  | None => b
  end.

(** The own property [k] of an object built by [JSON.parse]: when a key
    occurs more than once the last occurrence wins. *)
Fixpoint own_property (k : jsstring) (members : list (jsstring * json))
  : option json :=
  match members with
  | [] => None
  | (k', v) :: rest =>
      match own_property k rest with
      | Some w => Some w
      | None => if Js.eqb k' k then Some v else None
      end
  end.

(** ** [JSON.parse]

    The grammar of ECMA-404, read in two passes that each take one step per
    input symbol: a lexer over code units and a stack parser over tokens.
    [None] is the [SyntaxError] that [JSON.parse] throws. *)

Module Json.

Inductive token :=
| TLBrace | TRBrace | TLBracket | TRBracket | TColon | TComma
| TString (s : jsstring)
| TNumber (n : number)
| TTrue | TFalse | TNull.

Definition is_digit (c : N) : bool := (48 <=? c)%N && (c <=? 57)%N.

(** The leading digits of [s], and what follows them. *)
Fixpoint span_digits (s : jsstring) : list N * jsstring :=
  match s with
  | c :: s' =>
      if is_digit c
      then let (ds, rest) := span_digits s' in ((c - 48)%N :: ds, rest)
      else ([], s)
  | [] => ([], [])
  end.

Definition digits_value (ds : list N) : N :=
  fold_left (fun acc d => (10 * acc + d)%N) ds 0%N.

(** [s] without its first unit, when that unit is [c]. *)
Definition after (c : N) (s : jsstring) : option jsstring :=
  match s with
  | x :: r => if N.eqb x c then Some r else None
  | [] => None
  end.

(** number = [-] int [frac] [exp]; int = 0 | digit1-9 digits;
    frac = . digits+; exp = (e|E) [+|-] digits+ *)
Definition parse_number (s : jsstring) : option number :=
  let (sign, s1) :=
    match after 45 s with Some r => (true, r) | None => (false, s) end in
  let (ip, s2) := span_digits s1 in
  let int_ok :=
    match ip with
    | [] => false
    | d :: more => negb (N.eqb d 0) || is_empty more
    end in
  let '(fp, s3, frac_ok) :=
    match after 46 s2 with
    | Some r =>
        let (ds, r') := span_digits r in (ds, r', negb (is_empty ds))
    | None => ([], s2, true)
    end in
  let '(e, s4, exp_ok) :=
    match (match after 101 s3 with Some r => Some r | None => after 69 s3 end)
    with
    | Some r =>
        let (esign, r1) :=
          match after 43 r, after 45 r with
          | Some r0, _ => (false, r0)
          | None, Some r0 => (true, r0)
          | None, None => (false, r)
          end in
        let (ds, r') := span_digits r1 in
        let v := Z.of_N (digits_value ds) in
        (if esign then (- v)%Z else v, r', negb (is_empty ds))
    | None => (0%Z, s3, true)
    end in
  if int_ok && frac_ok && exp_ok && is_empty s4
  then Some (Num sign (digits_value (ip ++ fp))
                      (e - Z.of_nat (List.length fp)))
  else None.

Definition parse_word (s : jsstring) : option token :=
  if Js.eqb s (str "true") then Some TTrue
  else if Js.eqb s (str "false") then Some TFalse
  else if Js.eqb s (str "null") then Some TNull
  else None.

Definition hex_value (c : N) : option N :=
  if is_digit c then Some (c - 48)%N
  else if (97 <=? c)%N && (c <=? 102)%N then Some (c - 87)%N
  else if (65 <=? c)%N && (c <=? 70)%N then Some (c - 55)%N
  else None.

(** The lexer's state; the buffers hold what was read so far, last unit
    first. *)
Inductive lex_state :=
| LIdle
| LString (acc : jsstring)
| LEscape (acc : jsstring)
| LUnicode (acc : jsstring) (seen : nat) (value : N)
| LNumber (acc : jsstring)
| LWord (acc : jsstring).

Definition is_json_space (c : N) : bool :=
  existsb (N.eqb c) [32; 9; 10; 13]%N.

Definition is_number_unit (c : N) : bool :=
  is_digit c || existsb (N.eqb c) [43; 45; 46; 101; 69]%N.

Definition is_lower (c : N) : bool := (97 <=? c)%N && (c <=? 122)%N.

Definition idle_step (c : N) : option (lex_state * list token) :=
  if is_json_space c then Some (LIdle, [])
  else if (c =? 123)%N then Some (LIdle, [TLBrace])
  else if (c =? 125)%N then Some (LIdle, [TRBrace])
  else if (c =? 91)%N then Some (LIdle, [TLBracket])
  else if (c =? 93)%N then Some (LIdle, [TRBracket])
  else if (c =? 58)%N then Some (LIdle, [TColon])
  else if (c =? 44)%N then Some (LIdle, [TComma])
  else if (c =? 34)%N then Some (LString [], [])
  else if is_digit c || (c =? 45)%N then Some (LNumber [c], [])
  else if is_lower c then Some (LWord [c], [])
  else None.

Definition escape_unit (c : N) : option N :=
  if (c =? 34)%N then Some 34%N
  else if (c =? 92)%N then Some 92%N
  else if (c =? 47)%N then Some 47%N
  else if (c =? 98)%N then Some 8%N
  else if (c =? 102)%N then Some 12%N
  else if (c =? 110)%N then Some 10%N
  else if (c =? 114)%N then Some 13%N
  else if (c =? 116)%N then Some 9%N
  else None.

(** What a pending number or word becomes when the input leaves it. *)
Definition close_pending (st : lex_state) : option (list token) :=
  match st with
  | LIdle => Some []
  | LNumber acc => option_map (fun n => [TNumber n]) (parse_number (rev acc))
  | LWord acc => option_map (fun t => [t]) (parse_word (rev acc))
  | LString _ | LEscape _ | LUnicode _ _ _ => None
  end.

Definition lex_step (st : lex_state) (c : N)
  : option (lex_state * list token) :=
  match st with
  | LIdle => idle_step c
  | LString acc =>
      if (c =? 34)%N then Some (LIdle, [TString (rev acc)])
      else if (c =? 92)%N then Some (LEscape acc, [])
      else if (c <? 32)%N then None
      else Some (LString (c :: acc), [])
  | LEscape acc =>
      if (c =? 117)%N then Some (LUnicode acc 0 0%N, [])
      else option_map (fun u => (LString (u :: acc), [])) (escape_unit c)
  | LUnicode acc seen value =>
      match hex_value c with
      | Some d =>
          let value' := (16 * value + d)%N in
          if Nat.eqb seen 3 then Some (LString (value' :: acc), [])
          else Some (LUnicode acc (S seen) value', [])
      | None => None
      end
  | LNumber acc =>
      if is_number_unit c then Some (LNumber (c :: acc), [])
      else
        match close_pending st, idle_step c with
        | Some ts, Some (st', ts') => Some (st', ts ++ ts')
        | _, _ => None
        end
  | LWord acc =>
      if is_lower c then Some (LWord (c :: acc), [])
      else
        match close_pending st, idle_step c with
        | Some ts, Some (st', ts') => Some (st', ts ++ ts')
        | _, _ => None
        end
  end.

Fixpoint lex (st : lex_state) (s : jsstring) : option (list token) :=
  match s with
  | [] => close_pending st
  | c :: s' =>
      match lex_step st c with
      | Some (st', ts) => option_map (app ts) (lex st' s')
      | None => None
      end
  end.

(** A container that is being read: the items read so far, last first, and
    for an object the key whose value is awaited. *)
Inductive frame :=
| FArray (items : list json)
| FObject (members : list (jsstring * json)) (key : option jsstring).

Inductive expecting :=
| EValue            (* a value *)
| EValueOrClose     (* a value or "]", just after "[" *)
| EKeyOrClose       (* a key or "}", just after "{" *)
| EKey              (* a key, after "," in an object *)
| EColon            (* ":" after a key *)
| ECommaOrClose     (* "," or the closing bracket of the container *)
| EDone (v : json). (* the text is read *)

Definition parse_state := (list frame * expecting)%type.

(** A value is complete: it is the text's value, or it goes into the
    container on top of the stack. *)
Definition complete (stack : list frame) (v : json) : option parse_state :=
  match stack with
  | [] => Some ([], EDone v)
  | FArray items :: rest => Some (FArray (v :: items) :: rest, ECommaOrClose)
  | FObject members (Some k) :: rest =>
      Some (FObject ((k, v) :: members) None :: rest, ECommaOrClose)
  | FObject _ None :: _ => None
  end.

Definition value_step (stack : list frame) (t : token) : option parse_state :=
  match t with
  | TLBrace => Some (FObject [] None :: stack, EKeyOrClose)
  | TLBracket => Some (FArray [] :: stack, EValueOrClose)
  | TString s => complete stack (JString s)
  | TNumber n => complete stack (JNumber n)
  | TTrue => complete stack (JBool true)
  | TFalse => complete stack (JBool false)
  | TNull => complete stack JNull
  | TRBrace | TRBracket | TColon | TComma => None
  end.

Definition key_step (stack : list frame) (t : token) : option parse_state :=
  match t, stack with
  | TString k, FObject members None :: rest =>
      Some (FObject members (Some k) :: rest, EColon)
  | _, _ => None
  end.

Definition parse_step (ps : parse_state) (t : token) : option parse_state :=
  let (stack, e) := ps in
  match e with
  | EValue => value_step stack t
  | EValueOrClose =>
      match t, stack with
      | TRBracket, FArray items :: rest => complete rest (JArray (rev items))
      | _, _ => value_step stack t
      end
  | EKeyOrClose =>
      match t, stack with
      | TRBrace, FObject members None :: rest =>
          complete rest (JObject (rev members))
      | _, _ => key_step stack t
      end
  | EKey => key_step stack t
  | EColon =>
      match t with TColon => Some (stack, EValue) | _ => None end
  | ECommaOrClose =>
      match t, stack with
      | TComma, FArray _ :: _ => Some (stack, EValue)
      | TComma, FObject _ None :: _ => Some (stack, EKey)
      | TRBracket, FArray items :: rest => complete rest (JArray (rev items))
      | TRBrace, FObject members None :: rest =>
          complete rest (JObject (rev members))
      | _, _ => None
      end
  | EDone _ => None
  end.

Fixpoint parse_tokens (ps : parse_state) (ts : list token) : option json :=
  match ts with
  | [] => match ps with (_, EDone v) => Some v | _ => None end
  | t :: ts' =>
      match parse_step ps t with
      | Some ps' => parse_tokens ps' ts'
      | None => None
      end
  end.

(** [JSON.parse(text)]: the value, or [None] for a [SyntaxError]. *)
Definition parse (text : jsstring) : option json :=
  match lex LIdle text with
  | Some ts => parse_tokens ([], EValue) ts
  | None => None
  end.

End Json.

(** ** Exceptions *)

(** What a [throw] carries: an [Error] (or a subclass such as [TypeError])
    with its [message], or a value that is not an [Error], kept as the text
    that [String(value)] gives. *)
Inductive thrown :=
| ThrownError (message : jsstring)
| ThrownValue (text : jsstring).

(** A computation that returns or throws. *)
Inductive outcome (A : Type) :=
| Returns (a : A)
| Throws (e : thrown).
Arguments Returns {A} a.
Arguments Throws {A} e.

Definition bind {A B} (m : outcome A) (k : A -> outcome B) : outcome B :=
  match m with
  | Returns a => k a
  | Throws e => Throws e
  end.

Notation "x <- m ;; k" := (bind m (fun x => k))
  (at level 61, m at next level, right associativity).

(** [try { body } catch (error) { handler }] *)
Definition try_catch {A} (body : outcome A) (handler : thrown -> outcome A)
  : outcome A :=
  match body with
  | Returns a => Returns a
  | Throws e => handler e
  end.

(** [error instanceof Error ? error.message : other] *)
Definition message_or (e : thrown) (other : jsstring -> jsstring) : jsstring :=
  match e with
  | ThrownError message => message
  | ThrownValue text => other text
  end.

(** ** The JavaScript engine

    What the language leaves to the engine, or what needs floating point or
    long tables: the decimal text of a number, the output of
    [JSON.stringify], and the messages of the errors that the engine itself
    raises.  The theorems hold for every engine. *)

Inductive engine_error :=
| SyntaxError (text : jsstring)   (* [JSON.parse] rejects [text] *)
| NotAFunction                    (* a call of what is not a function *)
| NotPrimitive                    (* an object with no primitive value *)
| NullProperty (k : jsstring).    (* a property read on [null] *)

Class Engine := {
  (** [String(n)] for a number *)
  Number_toString : number -> jsstring;
  (** [JSON.stringify(v)] and, with [true], [JSON.stringify(v, null, 2)] *)
  JSON_stringify : json -> bool -> jsstring;
  (** the [message] of the error that the engine raises *)
  error_message : engine_error -> jsstring
}.

Section Conversions.
Context {E : Engine}.

Definition raise {A} (k : engine_error) : outcome A :=
  Throws (ThrownError (error_message k)).

(** [JSON.parse(text)] *)
Definition JSON_parse (text : jsstring) : outcome json :=
  match Json.parse text with
  | Some v => Returns v
  | None => raise (SyntaxError text)
  end.

(** [v.k] for a value that [JSON.parse] built and a key [k] that the
    prototypes do not define: [None] is [undefined]. *)
Definition get_property (v : json) (k : jsstring) : outcome (option json) :=
  match v with
  | JObject members => Returns (own_property k members)
  | JNull => raise (NullProperty k)
  | JBool _ | JNumber _ | JString _ | JArray _ => Returns None
  end.

(** ToString, as template literals and [String(v)] apply it.  An array is
    joined with commas, [null] elements giving the empty string.  An object
    built by [JSON.parse] has no callable own property: when it has an own
    property [toString] the conversion finds no primitive value and throws
    a [TypeError], otherwise [Object.prototype.toString] answers. *)
Fixpoint ToString (v : json) : outcome jsstring :=
  match v with
  | JNull => Returns (str "null")
  | JBool true => Returns (str "true")
  | JBool false => Returns (str "false")
  | JNumber n => Returns (Number_toString n)
  | JString s => Returns s
  | JArray elements =>
      parts <-
        (fix each (l : list json) : outcome (list jsstring) :=
           match l with
           | [] => Returns []
           | x :: l' =>
               s <- match x with JNull => Returns [] | _ => ToString x end ;;
               rest <- each l' ;;
               Returns (s :: rest)
           end) elements ;;
      Returns (join (str ",") parts)
  | JObject members =>
      match own_property (str "toString") members with
      | Some _ => raise NotPrimitive
      | None => Returns (str "[object Object]")
      end
  end.

End Conversions.

(** ** [Map] objects

    A [Map] with string keys, as the list of its entries in insertion
    order. *)
Module JsMap.
Section JsMap.
Variable V : Type.

Definition t := list (jsstring * V).

Definition empty : t := [].

Fixpoint get (m : t) (k : jsstring) : option V :=
  match m with
  | [] => None
  | (k', v) :: rest => if Js.eqb k' k then Some v else get rest k
  end.

Definition has (m : t) (k : jsstring) : bool :=
  match get m k with Some _ => true | None => false end.

(** [m.set(k, v)]: a present key keeps its place, a new key goes last. *)
Fixpoint set (m : t) (k : jsstring) (v : V) : t :=
  match m with
  | [] => [(k, v)]
  | (k', v') :: rest =>
      if Js.eqb k' k then (k', v) :: rest else (k', v') :: set rest k v
  end.

Definition entries (m : t) : list (jsstring * V) := m.

End JsMap.
End JsMap.

(** ** Data model ([types/database-types.ts], [types/api-types.ts],
    [llm/types.ts]) *)

Record Attachment := {
  attachment_id : jsstring;
  att_answer_id : jsstring;
  url : jsstring;
  type : option jsstring;
  created_at : option jsstring
}.

Record Judge := {
  judge_id : jsstring;
  name : jsstring;
  provider : jsstring;
  model : jsstring;
  prompt : jsstring;
  is_active : option bool
}.

(** [submissionMetadata] is not in the declared type; it stands for the
    property of that name that a caller may still put on the object. *)
Record EvaluationContext := {
  questionText : jsstring;
  questionType : jsstring;
  answerData : json;
  attachments : option (list Attachment);
  submissionMetadata : option json
}.

(** The declared type of [verdict] is the union of the three verdict
    strings and that of [reasoning] is [string]; what an adapter builds
    out of [JSON.parse] can be any value. *)
Record EvaluationResult := {
  verdict : json;
  reasoning : json
}.

Record LLMRequest := {
  systemPrompt : jsstring;
  userPrompt : jsstring;
  context : EvaluationContext;
  req_model : jsstring;
  temperature : option number;
  maxTokens : option number
}.

Record Usage := {
  promptTokens : number;
  completionTokens : number;
  totalTokens : number
}.

Record LLMResponse := {
  result : EvaluationResult;
  usage : option Usage
}.

(** ** The model call ([generateText] of the AI SDK) *)

(** The options object that an adapter passes to [generateText]; a key that
    the adapter does not write is [None]. *)
Record GenerateTextOptions := {
  opt_model : jsstring;
  opt_system : jsstring;
  opt_prompt : jsstring;
  opt_temperature : option number;
  opt_maxOutputTokens : option number
}.

Record LanguageModelUsage := {
  inputTokens : option number;
  outputTokens : option number;
  totalTokens_used : option number
}.

Record GenerateTextResult := {
  text : jsstring;
  sdk_usage : option LanguageModelUsage
}.

(** The outside world of one adapter call: the vendor's answer to the
    request, and the identifier that [crypto.randomUUID()] draws. *)
Record ModelWorld := {
  generateText : GenerateTextOptions -> outcome GenerateTextResult;
  randomUUID : jsstring
}.

(** [a ?? b] *)
Definition nullish_or {A} (a : option A) (b : A) : A :=
  match a with Some v => v | None => b end.

Definition newline : jsstring := [10%N].

Definition n_0_7 : number := Num false 7 (-1).
Definition n_0_8 : number := Num false 8 (-1).
Definition n_1000 : number := Num false 1000 0.
Definition n_0 : number := Num false 0 0.

(** ** Provider adapters ([llm/providers/openai.ts], [anthropic.ts],
    [gemini.ts]) *)

Inductive ProviderClass := OpenAIProvider | AnthropicProvider | GeminiProvider.

(** An adapter: an instance of one of the three classes, by its class and
    the arguments that its constructor was given. *)
Record LLMProviderInterface := {
  provider_class : ProviderClass;
  apiKey : jsstring;
  baseUrl : option jsstring
}.

Definition provider_name (c : ProviderClass) : jsstring :=
  match c with
  | OpenAIProvider => str "openai"
  | AnthropicProvider => str "anthropic"
  | GeminiProvider => str "gemini"
  end.

Definition supportsAttachments (c : ProviderClass) : bool :=
  match c with
  | OpenAIProvider => true | AnthropicProvider => true | GeminiProvider => true
  end.

Definition supportsVision (c : ProviderClass) : bool :=
  match c with
  | OpenAIProvider => true | AnthropicProvider => true | GeminiProvider => true
  end.

(** [validModels.includes(model)] *)
Definition array_includes (l : list jsstring) (x : jsstring) : bool :=
  existsb (fun y => Js.eqb y x) l.

Definition validateModel (c : ProviderClass) (model : jsstring) : bool :=
  match c with
  | OpenAIProvider =>
      array_includes
        [str "gpt-4"; str "gpt-4-turbo"; str "gpt-4o"; str "gpt-4o-mini";
         str "gpt-3.5-turbo"] model
  | AnthropicProvider =>
      array_includes
        [str "claude-3-5-sonnet-20241022"; str "claude-3-5-haiku-20241022";
         str "claude-3-opus-20240229"; str "claude-3-sonnet-20240229";
         str "claude-3-haiku-20240307"] model
  | GeminiProvider =>
      array_includes
        [str "gemini-2.0-flash-exp"; str "gemini-1.5-pro";
         str "gemini-1.5-flash"; str "gemini-1.0-pro"] model
  end.

(** [text.match(/\{[\s\S]*\}/)]: the match runs from the first opening
    brace of the text to its last closing brace; there is none when no
    closing brace follows the first opening one. *)
Definition match_braces (text : jsstring) : option jsstring :=
  match from_first 123 text with
  | Some suffix => upto_last 125 suffix
  | None => None
  end.

(** The keyword scan of the fallback path. *)
Definition keyword_verdict (text : jsstring) : jsstring :=
  let lowerText := toLowerCase text in
  if includes lowerText (str "pass")
     || includes lowerText (str "correct")
     || includes lowerText (str "good")
  then str "pass"
  else if includes lowerText (str "fail")
          || includes lowerText (str "incorrect")
          || includes lowerText (str "bad")
  then str "fail"
  else str "inconclusive".

Section Adapters.
Context {E : Engine}.

(** The body of the [try] block of [parseEvaluationResult]. *)
Definition parseEvaluationResult_try (text : jsstring)
  : outcome EvaluationResult :=
  match match_braces text with
  | Some jsonMatch =>
      parsed <- JSON_parse jsonMatch ;;
      parsed_verdict <- get_property parsed (str "verdict") ;;
      parsed_reasoning <- get_property parsed (str "reasoning") ;;
      Returns {| verdict := js_or parsed_verdict (JString (str "inconclusive"));
                 reasoning := js_or parsed_reasoning (JString text) |}
  | None =>
      Returns {| verdict := JString (keyword_verdict text);
                 reasoning := JString text |}
  end.

(** [parseEvaluationResult], the same private method in the three classes. *)
Definition parseEvaluationResult (text : jsstring) : EvaluationResult :=
  match parseEvaluationResult_try text with
  | Returns r => r
  | Throws _ =>
      {| verdict := JString (str "inconclusive"); reasoning := JString text |}
  end.

(** The prompt that goes to the model: the user prompt, the cache-busting
    comment and, when the context has attachments and the adapter supports
    vision, the URLs of the image attachments. *)
Definition promptContent (c : ProviderClass) (request : LLMRequest)
  (cacheId : jsstring) : jsstring :=
  let userPromptWithCacheBuster :=
    userPrompt request ++ newline ++ newline
      ++ str "<!-- Request ID: " ++ cacheId ++ str " -->" in
  match attachments (context request) with
  | Some ((_ :: _) as atts) =>
      if supportsVision c then
        let attachmentUrls :=
          join newline
            (map url
               (filter
                  (fun att =>
                     match type att with
                     | Some t => startsWith t (str "image/")
                     | None => false
                     end) atts)) in
        userPromptWithCacheBuster ++ newline ++ newline
          ++ str "Attached images:" ++ newline ++ attachmentUrls
      else userPromptWithCacheBuster
  | _ => userPromptWithCacheBuster
  end.

(** The argument of the adapter's call of [generateText]. *)
Definition generateText_options (c : ProviderClass) (request : LLMRequest)
  (cacheId : jsstring) : GenerateTextOptions :=
  match c with
  | OpenAIProvider =>
      {| opt_model := req_model request;
         opt_system := systemPrompt request;
         opt_prompt := promptContent OpenAIProvider request cacheId;
         opt_temperature := Some (nullish_or (temperature request) n_0_7);
         opt_maxOutputTokens := Some (nullish_or (maxTokens request) n_1000) |}
  | AnthropicProvider =>
      {| opt_model := req_model request;
         opt_system := systemPrompt request;
         opt_prompt := promptContent AnthropicProvider request cacheId;
         opt_temperature := Some (nullish_or (temperature request) n_0_7);
         opt_maxOutputTokens := Some (nullish_or (maxTokens request) n_1000) |}
  | GeminiProvider =>
      {| opt_model := req_model request;
         opt_system := systemPrompt request;
         opt_prompt := promptContent GeminiProvider request cacheId;
         opt_temperature := Some (nullish_or (temperature request) n_0_7);
         opt_maxOutputTokens := None |}
  end.

Definition response_usage (c : ProviderClass) (r : GenerateTextResult)
  : Usage :=
  match c with
  | GeminiProvider =>
      {| promptTokens := n_0; completionTokens := n_0; totalTokens := n_0 |}
  | OpenAIProvider | AnthropicProvider =>
      let field (f : LanguageModelUsage -> option number) :=
        nullish_or (match sdk_usage r with Some u => f u | None => None end)
                   n_0 in
      {| promptTokens := field inputTokens;
         completionTokens := field outputTokens;
         totalTokens := field totalTokens_used |}
  end.

Definition failure_prefix (c : ProviderClass) : jsstring :=
  match c with
  | OpenAIProvider => str "OpenAI evaluation failed: "
  | AnthropicProvider => str "Anthropic evaluation failed: "
  | GeminiProvider => str "Gemini evaluation failed: "
  end.

(** [evaluate(request)] *)
Definition evaluate (p : LLMProviderInterface) (w : ModelWorld)
  (request : LLMRequest) : outcome LLMResponse :=
  let c := provider_class p in
  try_catch
    (let cacheId := randomUUID w in
     r <- generateText w (generateText_options c request cacheId) ;;
     let evaluationResult := parseEvaluationResult (text r) in
     Returns {| result := evaluationResult;
                usage := Some (response_usage c r) |})
    (fun error =>
       Throws (ThrownError
                 (failure_prefix c
                    ++ message_or error (fun _ => str "Unknown error")))).

End Adapters.

(** ** The provider factory ([llm/provider-factory.ts]) *)

Module ProviderFactory.

Record ProviderConfig := {
  class : ProviderClass;
  models : list jsstring
}.

(** The object literal, as the list of its properties. *)
Definition PROVIDER_CONFIGS : list (jsstring * ProviderConfig) :=
  [ (str "openai",
     {| class := OpenAIProvider;
        models := [str "gpt-4"; str "gpt-4-turbo"; str "gpt-3.5-turbo";
                   str "gpt-4o"; str "gpt-4o-mini"] |});
    (str "anthropic",
     {| class := AnthropicProvider;
        models := [str "claude-3-5-sonnet-20241022";
                   str "claude-3-5-haiku-20241022";
                   str "claude-3-opus-20240229"] |});
    (str "gemini",
     {| class := GeminiProvider;
        models := [str "gemini-2.0-flash-exp"; str "gemini-1.5-pro";
                   str "gemini-1.5-flash"; str "gemini-1.0-pro"] |}) ].

(** [PROVIDER_CONFIGS[provider]], for an identifier that is not the name of
    a property of [Object.prototype]. *)
Definition config_of (provider : jsstring) : option ProviderConfig :=
  JsMap.get PROVIDER_CONFIGS provider.

(** [new config.class(apiKey, baseUrl)] is the instance of the class with
    these arguments of its constructor. *)
Definition createProvider (provider apiKey : jsstring)
  (baseUrl : option jsstring) : outcome LLMProviderInterface :=
  match config_of provider with
  | None => Throws (ThrownError (str "Unsupported provider: " ++ provider))
  | Some config =>
      Returns {| provider_class := class config;
                 apiKey := apiKey; baseUrl := baseUrl |}
  end.

Definition validateModel (provider model : jsstring) : bool :=
  match config_of provider with
  | Some config => array_includes (models config) model
  | None => false
  end.

Definition getAvailableModels (provider : jsstring) : list jsstring :=
  match config_of provider with
  | Some config => models config
  | None => []
  end.

(** [Object.keys(PROVIDER_CONFIGS)] *)
Definition getAvailableProviders : list jsstring :=
  map fst PROVIDER_CONFIGS.

End ProviderFactory.

(** ** The client registry ([llm/client.ts]) *)

(** The three variables of [process.env] that the client reads. *)
Record Env := {
  OPENAI_API_KEY : option jsstring;
  ANTHROPIC_API_KEY : option jsstring;
  GOOGLE_AI_API_KEY : option jsstring
}.

(** [if (key)]: the variable is set and is not the empty string. *)
Definition present (key : option jsstring) : option jsstring :=
  match key with
  | Some k => if is_empty k then None else Some k
  | None => None
  end.

Module LLMClient.

(** The client: its private [providers] map. *)
Definition t := JsMap.t LLMProviderInterface.

Definition register (name : jsstring) (key : option jsstring) (providers : t)
  : outcome t :=
  match present key with
  | Some k =>
      p <- ProviderFactory.createProvider name k None ;;
      Returns (JsMap.set providers name p)
  | None => Returns providers
  end.

(** The constructor, which runs [initializeProviders]. *)
Definition new (env : Env) : outcome t :=
  m1 <- register (str "openai") (OPENAI_API_KEY env) (JsMap.empty _) ;;
  m2 <- register (str "anthropic") (ANTHROPIC_API_KEY env) m1 ;;
  register (str "gemini") (GOOGLE_AI_API_KEY env) m2.

Definition getProvider (client : t) (provider : jsstring)
  : outcome LLMProviderInterface :=
  match JsMap.get client provider with
  | Some providerInstance => Returns providerInstance
  | None =>
      Throws (ThrownError
                (str "Provider " ++ provider
                   ++ str " is not configured or not available"))
  end.

Definition isProviderAvailable (client : t) (provider : jsstring) : bool :=
  JsMap.has client provider.

Definition getAvailableProviders (client : t) : list jsstring :=
  ProviderFactory.getAvailableProviders.

Definition validateProviderConfig (client : t) (provider model : jsstring)
  : bool :=
  ProviderFactory.validateModel provider model.

End LLMClient.

(** ** The prompt builder ([llm/prompt-builder.ts]) *)

Record IncludedFields := {
  inc_questionText : bool;
  inc_questionType : bool;
  inc_answerData : bool;
  inc_submissionMetadata : bool;
  inc_attachments : bool
}.

Record JudgeConfigMetadata := { includedFields : IncludedFields }.

Record PromptAttachment := {
  pa_url : jsstring;
  pa_type : jsstring;
  pa_name : jsstring
}.

Record EvaluationPrompt := {
  ep_systemPrompt : jsstring;
  ep_userPrompt : jsstring;
  ep_context : EvaluationContext;
  ep_attachments : option (list PromptAttachment)
}.

(** [s || other] for a string that may be [null] or [undefined]. *)
Definition string_or (s : option jsstring) (other : jsstring) : jsstring :=
  match s with
  | Some v => if is_empty v then other else v
  | None => other
  end.

Definition dq : jsstring := [34%N].

(** A word between double quotes. *)
Definition quoted (s : string) : jsstring := dq ++ str s ++ dq.

Definition closing_instruction : jsstring :=
  str "Please evaluate the above submission according to your criteria and provide your assessment.".

Module PromptBuilder.

Record t := {
  judgeCustomPrompt : jsstring;
  configMetadata : JudgeConfigMetadata
}.

Definition getBaseEvaluationInstructions : jsstring :=
  join newline
    [ str "You are an AI judge evaluating submissions. Your role is to assess whether submissions meet the expected criteria.";
      [];
      str "You must provide your assessment in the following JSON format:";
      [];
      str "{";
      str "  " ++ quoted "verdict" ++ str ": " ++ quoted "pass" ++ str " | "
        ++ quoted "fail" ++ str " | " ++ quoted "inconclusive" ++ str ",";
      str "  " ++ quoted "reasoning" ++ str ": "
        ++ quoted "Your detailed explanation of the evaluation decision";
      str "}";
      [];
      str "Verdict Guidelines:";
      str "- " ++ quoted "pass" ++ str ": The submission meets the expected criteria";
      str "- " ++ quoted "fail"
        ++ str ": The submission does not meet the expected criteria";
      str "- " ++ quoted "inconclusive"
        ++ str ": Unable to determine due to insufficient information or ambiguity";
      [];
      str "Evaluation Principles:";
      str "- Provide clear, specific reasoning for your decision";
      str "- Consider the context and any relevant information";
      str "- Be objective and fair in your assessment";
      str "- Follow the specific evaluation criteria provided below";
      [];
      str "IMPORTANT: You must respond with ONLY the JSON object, no additional text before or after." ].

Definition buildSystemPrompt (this : t) : jsstring :=
  let baseInstructions := getBaseEvaluationInstructions in
  judgeCustomPrompt this ++ newline ++ newline ++ baseInstructions.

Definition formatAttachments (atts : list Attachment) : jsstring :=
  join newline
    (map (fun attachment =>
            join (str " ")
              [string_or (type attachment) (str "file");
               str "- " ++ url attachment])
         atts).

Section WithEngine.
Context {E : Engine}.

Definition Boolean_toString (b : bool) : jsstring :=
  if b then str "true" else str "false".

Definition formatAnswerData (answerData : json) : jsstring :=
  match answerData with
  | JString s => s
  | JArray items =>
      join (str ", ")
        (map (fun item =>
                match item with
                | JNull | JArray _ | JObject _ => JSON_stringify item false
                | JString s => s
                | JNumber n => Number_toString n
                | JBool b => Boolean_toString b
                end) items)
  | JObject _ | JNull => JSON_stringify answerData true
  | JNumber n => Number_toString n
  | JBool b => Boolean_toString b
  end.

(** The [sections] array of [buildUserPrompt], after its pushes. *)
Definition sections (this : t) (context : EvaluationContext)
  : list jsstring :=
  let fields := includedFields (configMetadata this) in
  (if inc_questionText fields
   then [str "Question: " ++ questionText context] else [])
  ++ (if inc_questionType fields
      then [str "Question Type: " ++ questionType context] else [])
  ++ (if inc_answerData fields
      then [str "Answer: " ++ formatAnswerData (answerData context)] else [])
  ++ (match attachments context with
      | Some ((_ :: _) as atts) =>
          if inc_attachments fields
          then [str "Attachments: " ++ formatAttachments atts] else []
      | _ => []
      end).

Definition buildUserPrompt (this : t) (context : EvaluationContext)
  : jsstring :=
  let contextText := join (newline ++ newline) (sections this context) in
  contextText ++ newline ++ newline ++ closing_instruction.

Definition buildPrompt (this : t) (context : EvaluationContext)
  : EvaluationPrompt :=
  let systemPrompt := buildSystemPrompt this in
  let userPrompt := buildUserPrompt this context in
  {| ep_systemPrompt := systemPrompt;
     ep_userPrompt := userPrompt;
     ep_context := context;
     ep_attachments :=
       option_map
         (map (fun attachment =>
                 {| pa_url := url attachment;
                    pa_type := string_or (type attachment) [];
                    pa_name := string_or (type attachment) (str "file") |}))
         (attachments context) |}.

End WithEngine.
End PromptBuilder.

(** ** The evaluation executor ([services/evaluation-executor.ts]) *)

Section Executor.
Context {E : Engine}.

(** [validVerdicts.includes(v)] for a value [v]: only a string can be equal
    to one of the strings. *)
Definition is_valid_verdict (v : json) : bool :=
  match v with
  | JString s => array_includes [str "pass"; str "fail"; str "inconclusive"] s
  | _ => false
  end.

(** [r.trim().length === 0] for a truthy value [r]: only a string has a
    [trim] method. *)
Definition trimmed_is_empty (r : json) : outcome bool :=
  match r with
  | JString s => Returns (is_empty (trim s))
  | _ => raise NotAFunction
  end.

Definition parseEvaluationResponse (result : EvaluationResult)
  : outcome EvaluationResult :=
  if negb (is_valid_verdict (verdict result)) then
    v <- ToString (verdict result) ;;
    r <- ToString (js_or (Some (reasoning result))
                         (JString (str "No reasoning provided."))) ;;
    Returns {| verdict := JString (str "inconclusive");
               reasoning :=
                 JString (str "Invalid verdict received: " ++ v
                            ++ str ". " ++ r) |}
  else
    empty <- (if negb (truthy (reasoning result)) then Returns true
              else trimmed_is_empty (reasoning result)) ;;
    if empty
    then Returns {| verdict := verdict result;
                    reasoning :=
                      JString (str "No detailed reasoning provided by the judge.") |}
    else Returns result.

Definition executor_config : JudgeConfigMetadata :=
  {| includedFields :=
       {| inc_questionText := true;
          inc_questionType := true;
          inc_answerData := true;
          inc_submissionMetadata := true;
          inc_attachments := true |} |}.

(** The body of the [try] block of [executeEvaluation]. *)
Definition executeEvaluation_try (llmClient : LLMClient.t) (w : ModelWorld)
  (judge : Judge) (context : EvaluationContext) : outcome EvaluationResult :=
  provider <- LLMClient.getProvider llmClient (provider judge) ;;
  let promptBuilder :=
    {| PromptBuilder.judgeCustomPrompt := prompt judge;
       PromptBuilder.configMetadata := executor_config |} in
  let prompt := PromptBuilder.buildPrompt promptBuilder context in
  response <-
    evaluate provider w
      {| systemPrompt := ep_systemPrompt prompt;
         userPrompt := ep_userPrompt prompt;
         context := context;
         req_model := model judge;
         temperature := Some n_0_8;
         maxTokens := Some n_1000 |} ;;
  parseEvaluationResponse (result response).

Definition executeEvaluation (llmClient : LLMClient.t) (w : ModelWorld)
  (judge : Judge) (context : EvaluationContext) : EvaluationResult :=
  match executeEvaluation_try llmClient w judge context with
  | Returns result => result
  | Throws error =>
      {| verdict := JString (str "inconclusive");
         reasoning :=
           JString (str "Evaluation failed: "
                      ++ message_or error (fun text => text)) |}
  end.

End Executor.

(** ** The rate limiter ([services/rate-limiter.ts]) *)

Definition RATE_LIMITS : list (jsstring * nat) :=
  [ (str "openai", 50); (str "anthropic", 20); (str "gemini", 30) ].

(** The names of the properties that every object inherits from
    [Object.prototype]. *)
Definition Object_prototype_properties : list jsstring :=
  [ str "constructor"; str "hasOwnProperty"; str "isPrototypeOf";
    str "propertyIsEnumerable"; str "toLocaleString"; str "toString";
    str "valueOf"; str "__proto__"; str "__defineGetter__";
    str "__defineSetter__"; str "__lookupGetter__"; str "__lookupSetter__" ].

(** [RATE_LIMITS[provider] || 5].  The declared type of the result is
    [number]; for the name of an inherited property the lookup gives a
    function or an object, which is truthy and is returned: [None]. *)
Definition getRateLimit (provider : jsstring) : option nat :=
  match JsMap.get RATE_LIMITS provider with
  | Some n => Some n
  | None =>
      if array_includes Object_prototype_properties provider then None
      else Some 5
  end.

(** [pLimit(concurrency)]: a limiter, as its concurrency; [p-limit] throws
    a [TypeError] for what is not a number from 1 up. *)
Definition createRateLimiter (concurrency : option nat) : outcome nat :=
  match concurrency with
  | Some (S n) => Returns (S n)
  | Some 0 | None =>
      Throws (ThrownError
                (str "Expected `concurrency` to be a number from 1 and up"))
  end.

Definition createProviderRateLimiter (provider : jsstring) : outcome nat :=
  let concurrency := getRateLimit provider in
  createRateLimiter concurrency.

(** [rateLimiter(fn)]: the limiter decides when [fn] starts; the promise it
    gives back settles as the promise of [fn] does. *)
Definition limited {A} (rateLimiter : nat) (fn : outcome A) : outcome A := fn.

(** [Promise.all(promises)], for promises that reject, if they do, in the
    order of the list. *)
Fixpoint Promise_all {A} (promises : list (outcome A)) : outcome (list A) :=
  match promises with
  | [] => Returns []
  | p :: rest =>
      a <- p ;;
      others <- Promise_all rest ;;
      Returns (a :: others)
  end.

(** ** The orchestrator ([services/evaluation-orchestrator.ts]) *)

Record QuestionTemplateData := {
  question_template_id : jsstring;
  qt_questionType : jsstring;
  qt_questionText : jsstring
}.

Record EvaluationTask := {
  answer_id : jsstring;
  task_judge_id : jsstring;
  task_answerData : json;
  questionTemplateData : QuestionTemplateData
}.

Record TaskError := {
  task : EvaluationTask;
  error : jsstring
}.

Record EvaluationSummary := {
  total : nat;
  completed : nat;
  failed : nat;
  errors : list TaskError
}.

(** What a query of the data store answers: [{ data, error }], the error
    as its [message]. *)
Record Response (A : Type) := {
  data : option A;
  db_error : option jsstring
}.

(** The outside world of one task: the answers of the data store to the
    two reads of the task's judge (while grouping, and inside the
    rate-limited slot), the vendor's side of the model call, and the error
    that the insert of the evaluation row reports, if any. *)
Record TaskWorld := {
  judge_when_grouping : Response Judge;
  judge_in_slot : Response Judge;
  model_world : ModelWorld;
  insert_error : EvaluationResult -> option jsstring
}.

(** A task with its outside world. *)
Definition Work := (EvaluationTask * TaskWorld)%type.

Record QuestionTemplateRow := {
  row_question_template_id : jsstring;
  question_text : jsstring;
  question_type : option jsstring
}.

Record AnswerRow := {
  row_answer_id : jsstring;
  answer_value : json;
  question_templates : QuestionTemplateRow
}.

Record AnswerJudgeRow := {
  aj_answer_id : jsstring;
  judges : Judge
}.

(** The outside world of one run: the answers to the three queries that
    build the tasks, and the world of each task, by its position in the
    array of tasks. *)
Record RunWorld := {
  answers_response : Response (list AnswerRow);
  attachments_response : Response (list Attachment);
  answer_judges_response : Response (list AnswerJudgeRow);
  task_world : nat -> TaskWorld
}.

Definition undefined_text : jsstring := str "undefined".

(** [getJudge(judgeId)], given the answer of the data store. *)
Definition getJudge (response : Response Judge) (judgeId : jsstring)
  : outcome Judge :=
  match db_error response, data response with
  | None, Some judge => Returns judge
  | judgeError, _ =>
      Throws (ThrownError
                (str "Failed to fetch judge " ++ judgeId ++ str ": "
                   ++ nullish_or judgeError undefined_text))
  end.

(** [storeEvaluationResult(answerId, judgeId, result)], given what the
    insert reports. *)
Definition storeEvaluationResult (insert : EvaluationResult -> option jsstring)
  (answerId judgeId : jsstring) (result : EvaluationResult) : outcome unit :=
  match insert result with
  | Some message =>
      Throws (ThrownError
                (str "Failed to store evaluation result: " ++ message))
  | None => Returns tt
  end.

(** [buildEvaluationTasks(answers)] *)
Definition buildEvaluationTasks (response : Response (list AnswerJudgeRow))
  (answers : list AnswerRow) : outcome (list EvaluationTask) :=
  match db_error response with
  | Some message =>
      Throws (ThrownError (str "Failed to fetch judges: " ++ message))
  | None =>
      match data response with
      | None | Some [] => Returns []
      | Some answerJudges =>
          Returns
            (flat_map
               (fun answer =>
                  let relevantJudges :=
                    filter (fun aj => Js.eqb (aj_answer_id aj)
                                             (row_answer_id answer))
                           answerJudges in
                  map (fun answerJudge =>
                         {| answer_id := row_answer_id answer;
                            task_judge_id := judge_id (judges answerJudge);
                            task_answerData := answer_value answer;
                            questionTemplateData :=
                              {| question_template_id :=
                                   row_question_template_id
                                     (question_templates answer);
                                 qt_questionType :=
                                   string_or
                                     (question_type (question_templates answer))
                                     (str "text");
                                 qt_questionText :=
                                   question_text (question_templates answer)
                              |} |})
                      relevantJudges)
               answers)
      end
  end.

Record EvaluationData := {
  ed_answers : list AnswerRow;
  attachmentsByAnswer : JsMap.t (list Attachment);
  tasks : list EvaluationTask
}.

(** [fetchEvaluationData(queueId)] *)
Definition fetchEvaluationData (w : RunWorld) (queueId : jsstring)
  : outcome EvaluationData :=
  match db_error (answers_response w) with
  | Some message =>
      Throws (ThrownError (str "Failed to fetch answers: " ++ message))
  | None =>
      match data (answers_response w) with
      | None | Some [] =>
          Returns {| ed_answers := [];
                     attachmentsByAnswer := JsMap.empty _;
                     tasks := [] |}
      | Some answers =>
          let attachments :=
            nullish_or (data (attachments_response w)) [] in
          let attachmentsByAnswer :=
            fold_left
              (fun m attachment =>
                 let existing :=
                   nullish_or (JsMap.get m (att_answer_id attachment)) [] in
                 JsMap.set m (att_answer_id attachment)
                           (existing ++ [attachment]))
              attachments (JsMap.empty _) in
          tasks <- buildEvaluationTasks (answer_judges_response w) answers ;;
          Returns {| ed_answers := answers;
                     attachmentsByAnswer := attachmentsByAnswer;
                     tasks := tasks |}
      end
  end.

(** [groupTasksByProvider(tasks)], the loop from the map built so far.
    The source asserts with [!] that the group is found after the [has]
    and [set]; a missing group would be a [TypeError] on [push]. *)
Fixpoint groupTasksByProvider_from (tasksByProvider : JsMap.t (list Work))
  (tasks : list Work) : outcome (JsMap.t (list Work)) :=
  match tasks with
  | [] => Returns tasksByProvider
  | task :: rest =>
      judge <- getJudge (judge_when_grouping (snd task))
                        (task_judge_id (fst task)) ;;
      let provider := provider judge in
      let tasksByProvider :=
        if negb (JsMap.has tasksByProvider provider)
        then JsMap.set tasksByProvider provider []
        else tasksByProvider in
      match JsMap.get tasksByProvider provider with
      | Some group =>
          groupTasksByProvider_from
            (JsMap.set tasksByProvider provider (group ++ [task])) rest
      | None =>
          Throws (ThrownError
                    (str "Cannot read properties of undefined (reading 'push')"))
      end
  end.

Definition groupTasksByProvider (tasks : list Work)
  : outcome (JsMap.t (list Work)) :=
  groupTasksByProvider_from (JsMap.empty _) tasks.

(** What the promise of one task resolves to. *)
Record TaskResult := {
  success : bool;
  tr_task : EvaluationTask;
  tr_error : option jsstring
}.

Section Orchestrator.
Context {E : Engine}.

(** The context that the slot assembles for a task. *)
Definition task_context (attachmentsByAnswer : JsMap.t (list Attachment))
  (task : EvaluationTask) : EvaluationContext :=
  let attachments :=
    nullish_or (JsMap.get attachmentsByAnswer (answer_id task)) [] in
  {| questionText := qt_questionText (questionTemplateData task);
     questionType := qt_questionType (questionTemplateData task);
     answerData := task_answerData task;
     attachments :=
       Some (map (fun att =>
                    {| attachment_id := attachment_id att;
                       att_answer_id := att_answer_id att;
                       url := url att;
                       type := type att;
                       created_at := created_at att |})
                 attachments);
     submissionMetadata := None |}.

(** The function that runs inside the rate-limited slot. *)
Definition slot (llmClient : LLMClient.t)
  (attachmentsByAnswer : JsMap.t (list Attachment)) (work : Work)
  : outcome TaskResult :=
  let (task, w) := work in
  judge <- getJudge (judge_in_slot w) (task_judge_id task) ;;
  let context := task_context attachmentsByAnswer task in
  let result := executeEvaluation llmClient (model_world w) judge context in
  _ <- storeEvaluationResult (insert_error w) (answer_id task)
                             (task_judge_id task) result ;;
  Returns {| success := true; tr_task := task; tr_error := None |}.

(** One task's promise: the slot under the limiter, with its [catch]. *)
Definition settle (llmClient : LLMClient.t)
  (attachmentsByAnswer : JsMap.t (list Attachment)) (rateLimiter : nat)
  (work : Work) : TaskResult :=
  match limited rateLimiter (slot llmClient attachmentsByAnswer work) with
  | Returns r => r
  | Throws e =>
      {| success := false;
         tr_task := fst work;
         tr_error := Some (message_or e (fun _ => str "Unknown error")) |}
  end.

(** The two loops that aggregate the results into the summary. *)
Definition aggregate (summary : EvaluationSummary)
  (allProviderResults : list (list TaskResult)) : EvaluationSummary :=
  fold_left
    (fun summary providerResults =>
       fold_left
         (fun summary result =>
            if success result
            then {| total := total summary;
                    completed := S (completed summary);
                    failed := failed summary;
                    errors := errors summary |}
            else {| total := total summary;
                    completed := completed summary;
                    failed := S (failed summary);
                    errors :=
                      errors summary
                        ++ [ {| task := tr_task result;
                                error := nullish_or (tr_error result)
                                           (str "Unknown error") |} ] |})
         providerResults summary)
    allProviderResults summary.

(** The promise of one provider group: its limiter is created, then its
    tasks settle. *)
Definition providerPromise (llmClient : LLMClient.t)
  (attachmentsByAnswer : JsMap.t (list Attachment))
  (entry : jsstring * list Work) : outcome (list TaskResult) :=
  let (provider, providerTasks) := entry in
  rateLimiter <- createProviderRateLimiter provider ;;
  Promise_all
    (map (fun task =>
            Returns (settle llmClient attachmentsByAnswer rateLimiter task))
         providerTasks).

(** [executeEvaluations(tasks, attachmentsByAnswer)] *)
Definition executeEvaluations (llmClient : LLMClient.t) (tasks : list Work)
  (attachmentsByAnswer : JsMap.t (list Attachment))
  : outcome EvaluationSummary :=
  let summary :=
    {| total := List.length tasks; completed := 0; failed := 0;
       errors := [] |} in
  tasksByProvider <- groupTasksByProvider tasks ;;
  let providerPromises :=
    map (providerPromise llmClient attachmentsByAnswer)
        (JsMap.entries tasksByProvider) in
  allProviderResults <- Promise_all providerPromises ;;
  Returns (aggregate summary allProviderResults).

(** The tasks with their worlds, by position. *)
Definition with_worlds (w : RunWorld) (tasks : list EvaluationTask)
  : list Work :=
  map (fun '(i, t) => (t, task_world w i))
      (combine (seq 0 (List.length tasks)) tasks).

(** [runEvaluations(queueId)]; its [catch] rethrows. *)
Definition runEvaluations (llmClient : LLMClient.t) (w : RunWorld)
  (queueId : jsstring) : outcome EvaluationSummary :=
  d <- fetchEvaluationData w queueId ;;
  if Nat.eqb (List.length (tasks d)) 0
  then Returns {| total := 0; completed := 0; failed := 0; errors := [] |}
  else executeEvaluations llmClient (with_worlds w (tasks d))
                          (attachmentsByAnswer d).

End Orchestrator.

(** ** An engine to run the model on examples

    The number printer follows [Number::toString] on the digits of the
    literal, which is what an engine prints for a literal of at most 15
    significant digits within the range of the normal doubles.  The
    serializer writes the members of an object in the order of the list,
    which is the order of [JSON.stringify] when the keys are distinct and
    none is an array index.  The messages are those of V8; that of the
    [SyntaxError] stands for the ones V8 words after the offending token. *)
Module Reference.

Definition decimal (n : N) : jsstring :=
  str (NilEmpty.string_of_uint (N.to_uint n)).

Definition zeros (n : nat) : jsstring := repeat 48%N n.

Fixpoint strip_zeros (rev_digits : jsstring) : jsstring :=
  match rev_digits with
  | c :: r => if (c =? 48)%N then strip_zeros r else rev_digits
  | [] => []
  end.

Definition number_text (x : number) : jsstring :=
  if (digits x =? 0)%N then str "0"
  else
    let all := decimal (digits x) in
    let ds := rev (strip_zeros (rev all)) in
    let k := Z.of_nat (List.length ds) in
    let n := (Z.of_nat (List.length all) + exp10 x)%Z in
    (if neg x then str "-" else [])
    ++ (if (k <=? n)%Z && (n <=? 21)%Z then ds ++ zeros (Z.to_nat (n - k))
        else if (0 <? n)%Z && (n <=? 21)%Z
        then firstn (Z.to_nat n) ds ++ str "." ++ skipn (Z.to_nat n) ds
        else if (-6 <? n)%Z && (n <=? 0)%Z
        then str "0." ++ zeros (Z.to_nat (- n)) ++ ds
        else
          firstn 1 ds
          ++ (if (k =? 1)%Z then [] else str "." ++ skipn 1 ds)
          ++ str "e" ++ (if (0 <=? n - 1)%Z then str "+" else str "-")
          ++ decimal (Z.to_N (Z.abs (n - 1)))).

Definition hex_digit (d : N) : N :=
  if (d <? 10)%N then (48 + d)%N else (87 + d)%N.

Definition unicode_escape (c : N) : jsstring :=
  [92; 117]%N
  ++ map hex_digit
       [(c / 4096) mod 16; (c / 256) mod 16; (c / 16) mod 16; c mod 16]%N.

Definition is_high_surrogate (c : N) : bool :=
  (55296 <=? c)%N && (c <=? 56319)%N.
Definition is_low_surrogate (c : N) : bool :=
  (56320 <=? c)%N && (c <=? 57343)%N.

Fixpoint quote_units (s : jsstring) : jsstring :=
  match s with
  | [] => []
  | c :: rest =>
      if (c =? 8)%N then [92; 98]%N ++ quote_units rest
      else if (c =? 9)%N then [92; 116]%N ++ quote_units rest
      else if (c =? 10)%N then [92; 110]%N ++ quote_units rest
      else if (c =? 12)%N then [92; 102]%N ++ quote_units rest
      else if (c =? 13)%N then [92; 114]%N ++ quote_units rest
      else if (c =? 34)%N then [92; 34]%N ++ quote_units rest
      else if (c =? 92)%N then [92; 92]%N ++ quote_units rest
      else if (c <? 32)%N || is_low_surrogate c
      then unicode_escape c ++ quote_units rest
      else if is_high_surrogate c then
        match rest with
        | d :: rest' =>
            if is_low_surrogate d then c :: d :: quote_units rest'
            else unicode_escape c ++ quote_units rest
        | [] => unicode_escape c
        end
      else c :: quote_units rest
  end.

Definition QuoteJSONString (s : jsstring) : jsstring :=
  dq ++ quote_units s ++ dq.

Definition wrap (pretty : bool) (stepback indent opening closing : jsstring)
  (parts : list jsstring) : jsstring :=
  match parts with
  | [] => opening ++ closing
  | _ :: _ =>
      if pretty
      then opening ++ newline ++ indent
             ++ join (str "," ++ newline ++ indent) parts
             ++ newline ++ stepback ++ closing
      else opening ++ join (str ",") parts ++ closing
  end.

Fixpoint serialize (pretty : bool) (stepback : jsstring) (v : json)
  : jsstring :=
  let indent := if pretty then stepback ++ str "  " else stepback in
  match v with
  | JNull => str "null"
  | JBool b => if b then str "true" else str "false"
  | JNumber n => number_text n
  | JString s => QuoteJSONString s
  | JArray elements =>
      wrap pretty stepback indent (str "[") (str "]")
        (map (serialize pretty indent) elements)
  | JObject members =>
      wrap pretty stepback indent (str "{") (str "}")
        (map (fun m =>
                QuoteJSONString (fst m) ++ str ":"
                  ++ (if pretty then str " " else [])
                  ++ serialize pretty indent (snd m))
             members)
  end.

Definition message (k : engine_error) : jsstring :=
  match k with
  | SyntaxError _ => str "Unexpected token in JSON"
  | NotAFunction => str "result.reasoning.trim is not a function"
  | NotPrimitive => str "Cannot convert object to primitive value"
  | NullProperty k =>
      str "Cannot read properties of null (reading '" ++ k ++ str "')"
  end.

Definition engine : Engine :=
  {| Number_toString := number_text;
     JSON_stringify := fun v pretty => serialize pretty [] v;
     error_message := message |}.

End Reference.

(** * Vocabulary of the properties *)

(** [parsed.k], when the read does not throw. *)
Definition property_of (parsed : json) (k : jsstring) : option json :=
  match parsed with
  | JObject members => own_property k members
  | _ => None
  end.

(** A property that is missing or whose value is falsy. *)
Definition missing_or_falsy (v : option json) : Prop :=
  match v with
  | Some x => truthy x = false
  | None => True
  end.

(** The suffixes, the prefixes and the substrings of a text. *)
Fixpoint suffixes (s : jsstring) : list jsstring :=
  s :: match s with [] => [] | _ :: s' => suffixes s' end.

Fixpoint prefixes (s : jsstring) : list jsstring :=
  [] :: match s with [] => [] | c :: s' => map (cons c) (prefixes s') end.

Definition substrings (s : jsstring) : list jsstring :=
  flat_map prefixes (suffixes s).

(** The text parses as a JSON object. *)
Definition is_json_object (s : jsstring) : bool :=
  match Json.parse s with
  | Some (JObject _) => true
  | _ => false
  end.

(** The variable of the environment that holds the credential of a
    provider. *)
Definition credential (env : Env) (provider : jsstring) : option jsstring :=
  if Js.eqb (str "openai") provider then OPENAI_API_KEY env
  else if Js.eqb (str "anthropic") provider then ANTHROPIC_API_KEY env
  else if Js.eqb (str "gemini") provider then GOOGLE_AI_API_KEY env
  else None.

(** The credential of the provider is set and not empty. *)
Definition configured (env : Env) (provider : jsstring) : bool :=
  match present (credential env provider) with
  | Some _ => true
  | None => false
  end.

(** The error of [getProvider] for a provider that is not registered. *)
Definition not_configured_error (provider : jsstring) : thrown :=
  ThrownError
    (str "Provider " ++ provider ++ str " is not configured or not available").

(** The sections that are not left out. *)
Definition present_sections (l : list (option jsstring)) : list jsstring :=
  flat_map (fun o => match o with Some s => [s] | None => [] end) l.

(** The configuration with the submission metadata switched off. *)
Definition without_metadata (fields : IncludedFields) : IncludedFields :=
  {| inc_questionText := inc_questionText fields;
     inc_questionType := inc_questionType fields;
     inc_answerData := inc_answerData fields;
     inc_submissionMetadata := false;
     inc_attachments := inc_attachments fields |}.

(** The context with other submission metadata, or none. *)
Definition with_metadata (metadata : option json)
  (context : EvaluationContext) : EvaluationContext :=
  {| questionText := questionText context;
     questionType := questionType context;
     answerData := answerData context;
     attachments := attachments context;
     submissionMetadata := metadata |}.

(** A well-formed result: the verdict is one of the three verdict strings
    and the reasoning is a string that is not empty. *)
Definition well_formed (r : EvaluationResult) : Prop :=
  exists v s,
    r = {| verdict := JString v; reasoning := JString s |}
    /\ (v = str "pass" \/ v = str "fail" \/ v = str "inconclusive")
    /\ s <> [].

(** The result that the [catch] of [executeEvaluation] returns. *)
Definition evaluation_failed (e : thrown) : EvaluationResult :=
  {| verdict := JString (str "inconclusive");
     reasoning :=
       JString (str "Evaluation failed: " ++ message_or e (fun text => text)) |}.

(** The tasks of all the groups, group after group. *)
Definition flatten (V : Type) (m : JsMap.t (list V)) : list V :=
  List.concat (map snd m).

(** The entry of the failure list for a result that is not a success. *)
Definition error_entry (r : TaskResult) : TaskError :=
  {| task := tr_task r;
     error := nullish_or (tr_error r) (str "Unknown error") |}.

Definition is_failure (r : TaskResult) : bool := negb (success r).

Section Vocabulary.
Context {E : Engine}.

(** The user prompt as the specification words it: the sections question
    text, question type, formatted answer data, formatted submission
    metadata and formatted attachments, in that order, each left out when
    its flag is false or its data is absent, and then the closing
    instruction.  The specification does not say how the metadata are
    formatted: [formatMetadata] is any formatting. *)
Definition spec_userPrompt (formatMetadata : json -> jsstring)
  (fields : IncludedFields) (context : EvaluationContext) : jsstring :=
  join (newline ++ newline)
    (present_sections
       [ if inc_questionText fields
         then Some (str "Question: " ++ questionText context) else None;
         if inc_questionType fields
         then Some (str "Question Type: " ++ questionType context) else None;
         if inc_answerData fields
         then Some (str "Answer: "
                      ++ PromptBuilder.formatAnswerData (answerData context))
         else None;
         match submissionMetadata context with
         | Some metadata =>
             if inc_submissionMetadata fields
             then Some (formatMetadata metadata) else None
         | None => None
         end;
         match attachments context with
         | Some ((_ :: _) as atts) =>
             if inc_attachments fields
             then Some (str "Attachments: "
                          ++ PromptBuilder.formatAttachments atts)
             else None
         | _ => None
         end ])
  ++ newline ++ newline ++ closing_instruction.

(** The request that [executeEvaluation] sends to the adapter. *)
Definition executor_request (judge : Judge) (context : EvaluationContext)
  : LLMRequest :=
  let prompt :=
    PromptBuilder.buildPrompt
      {| PromptBuilder.judgeCustomPrompt := prompt judge;
         PromptBuilder.configMetadata := executor_config |} context in
  {| systemPrompt := ep_systemPrompt prompt;
     userPrompt := ep_userPrompt prompt;
     context := context;
     req_model := model judge;
     temperature := Some n_0_8;
     maxTokens := Some n_1000 |}.

(** The error, if any, that the slot of a task throws: the judge cannot be
    read inside the slot, or the evaluation row cannot be stored.  [None]:
    the slot runs to its end. *)
Definition slot_error (llmClient : LLMClient.t)
  (attachmentsByAnswer : JsMap.t (list Attachment)) (work : Work)
  : option jsstring :=
  match getJudge (judge_in_slot (snd work)) (task_judge_id (fst work)) with
  | Throws e => Some (message_or e (fun _ => str "Unknown error"))
  | Returns judge =>
      let result :=
        executeEvaluation llmClient (model_world (snd work)) judge
          (task_context attachmentsByAnswer (fst work)) in
      match insert_error (snd work) result with
      | Some message =>
          Some (str "Failed to store evaluation result: " ++ message)
      | None => None
      end
  end.

Definition slot_fails (llmClient : LLMClient.t)
  (attachmentsByAnswer : JsMap.t (list Attachment)) (work : Work) : bool :=
  match slot_error llmClient attachmentsByAnswer work with
  | Some _ => true
  | None => false
  end.

(** The entries of the failure list that the tasks of a list give. *)
Definition failure_entries (llmClient : LLMClient.t)
  (attachmentsByAnswer : JsMap.t (list Attachment)) (works : list Work)
  : list TaskError :=
  flat_map
    (fun work =>
       match slot_error llmClient attachmentsByAnswer work with
       | Some message => [ {| task := fst work; error := message |} ]
       | None => []
       end)
    works.

End Vocabulary.

(** ** Inputs of the examples *)

Module Example.

(** A JSON object text with the two fields of a verdict. *)
Definition verdict_object (v r : string) : jsstring :=
  str "{" ++ quoted "verdict" ++ str ":" ++ quoted v ++ str ","
    ++ quoted "reasoning" ++ str ":" ++ quoted r ++ str "}".

(** Prose with pass words around an object that says "fail". *)
Definition prose_and_json : jsstring :=
  str "Looks good and correct: " ++ verdict_object "fail" "wrong unit".

(** An object that says "fail", after prose that has braces of its own. *)
Definition braces_in_prose : jsstring :=
  str "Result for {draft}: " ++ verdict_object "fail" "wrong unit".

(** A pass word, and braces around what is not JSON. *)
Definition prose_with_braces : jsstring := str "All good {draft}".

Definition plain_prose : jsstring :=
  str "This submission seems fine and correct overall.".

(** An object with an empty verdict and no reasoning. *)
Definition empty_verdict : jsstring :=
  str "{" ++ quoted "verdict" ++ str ":" ++ dq ++ dq ++ str ","
    ++ quoted "score" ++ str ":3}".

(** Only the OpenAI credential is set; the Gemini one is the empty string. *)
Definition env : Env :=
  {| OPENAI_API_KEY := Some (str "sk-test");
     ANTHROPIC_API_KEY := None;
     GOOGLE_AI_API_KEY := Some [] |}.

Definition no_credentials : Env :=
  {| OPENAI_API_KEY := None;
     ANTHROPIC_API_KEY := None;
     GOOGLE_AI_API_KEY := None |}.

Definition openai_adapter : LLMProviderInterface :=
  {| provider_class := OpenAIProvider;
     apiKey := str "sk-test";
     baseUrl := None |}.

(** The client that [LLMClient.new env] builds. *)
Definition client : LLMClient.t := [(str "openai", openai_adapter)].

Definition judge_openai : Judge :=
  {| judge_id := str "j1"; name := str "Strict"; provider := str "openai";
     model := str "gpt-4o"; prompt := str "Be strict.";
     is_active := Some true |}.

Definition judge_anthropic : Judge :=
  {| judge_id := str "j2"; name := str "Lenient";
     provider := str "anthropic";
     model := str "claude-3-opus-20240229"; prompt := str "Be kind.";
     is_active := Some true |}.

Definition context_sky : EvaluationContext :=
  {| questionText := str "Is the sky blue?";
     questionType := str "text";
     answerData := JString (str "yes");
     attachments := None;
     submissionMetadata := Some (JObject [(str "source", JString (str "web"))]) |}.

(** The vendor answers with an object that says "pass". *)
Definition world_pass : ModelWorld :=
  {| generateText := fun _ =>
       Returns {| text := verdict_object "pass" "Observed on a clear day.";
                  sdk_usage := None |};
     randomUUID := str "0000" |}.

(** The network is down. *)
Definition world_down : ModelWorld :=
  {| generateText := fun _ => Throws (ThrownError (str "network down"));
     randomUUID := str "0001" |}.

Definition found (j : Judge) : Response Judge :=
  {| data := Some j; db_error := None |}.

Definition lost (message : string) : Response Judge :=
  {| data := None; db_error := Some (str message) |}.

Definition template : QuestionTemplateRow :=
  {| row_question_template_id := str "q1";
     question_text := str "Is the sky blue?";
     question_type := None |}.

Definition answer (id : string) : AnswerRow :=
  {| row_answer_id := str id;
     answer_value := JString (str "yes");
     question_templates := template |}.

(** Three answers, the first two judged by the OpenAI judge and the third
    by the Anthropic judge.  The model answers the first task, the network
    is down for the second, and the insert of the third row fails. *)
Definition run : RunWorld :=
  {| answers_response :=
       {| data := Some [answer "a1"; answer "a2"; answer "a3"];
          db_error := None |};
     attachments_response := {| data := Some []; db_error := None |};
     answer_judges_response :=
       {| data := Some [ {| aj_answer_id := str "a1"; judges := judge_openai |};
                         {| aj_answer_id := str "a2"; judges := judge_openai |};
                         {| aj_answer_id := str "a3";
                            judges := judge_anthropic |} ];
          db_error := None |};
     task_world := fun i =>
       match i with
       | 0 => {| judge_when_grouping := found judge_openai;
                 judge_in_slot := found judge_openai;
                 model_world := world_pass;
                 insert_error := fun _ => None |}
       | 1 => {| judge_when_grouping := found judge_openai;
                 judge_in_slot := found judge_openai;
                 model_world := world_down;
                 insert_error := fun _ => None |}
       | _ => {| judge_when_grouping := found judge_anthropic;
                 judge_in_slot := found judge_anthropic;
                 model_world := world_pass;
                 insert_error := fun _ => Some (str "duplicate key") |}
       end |}.

Definition task_of (answer judge : string) : EvaluationTask :=
  {| answer_id := str answer;
     task_judge_id := str judge;
     task_answerData := JString (str "yes");
     questionTemplateData :=
       {| question_template_id := str "q1";
          qt_questionType := str "text";
          qt_questionText := str "Is the sky blue?" |} |}.

Definition summary : EvaluationSummary :=
  {| total := 3; completed := 2; failed := 1;
     errors :=
       [ {| task := task_of "a3" "j2";
            error := str "Failed to store evaluation result: duplicate key" |} ] |}.

(** The tasks of the run, with their worlds. *)
Definition works : list Work :=
  [ (task_of "a1" "j1", task_world run 0);
    (task_of "a2" "j1", task_world run 1);
    (task_of "a3" "j2", task_world run 2) ].

(** One task: its judge is read while grouping, the read inside the slot
    fails, and the insert would succeed. *)
Definition judge_lost_in_slot : list Work :=
  [ (task_of "a1" "j1",
     {| judge_when_grouping := found judge_openai;
        judge_in_slot := lost "connection reset";
        model_world := world_pass;
        insert_error := fun _ => None |}) ].

Definition summary_judge_lost : EvaluationSummary :=
  {| total := 1; completed := 0; failed := 1;
     errors :=
       [ {| task := task_of "a1" "j1";
            error := str "Failed to fetch judge j1: connection reset" |} ] |}.

End Example.

(** Case analysis on which of the three provider names an identifier is. *)
Ltac compare_names :=
  repeat match goal with
         | |- context [Js.eqb (str ?a) (str ?b)] =>
             let r := eval vm_compute in (Js.eqb (str a) (str b)) in
             change (Js.eqb (str a) (str b)) with r
         end.

Ltac by_provider provider :=
  let E := fresh "E" in
  destruct (Js.eqb (str "openai") provider) eqn:E;
  [ apply Js.eqb_eq in E; subst provider; compare_names
  | clear E;
    destruct (Js.eqb (str "anthropic") provider) eqn:E;
    [ apply Js.eqb_eq in E; subst provider; compare_names
    | clear E;
      destruct (Js.eqb (str "gemini") provider) eqn:E;
      [ apply Js.eqb_eq in E; subst provider; compare_names | clear E ] ] ].

(** The conjuncts of a goal, without unfolding a definition. *)
Ltac conjuncts := repeat match goal with |- _ /\ _ => split end.

(** * More of the code *)

(** ** The table of the providers ([types/api-types.ts]) and the factory
    function of the client ([llm/client.ts]) *)

Record LLMProviderInfo := {
  info_name : jsstring;
  displayName : jsstring;
  info_models : list jsstring;
  info_supportsAttachments : bool;
  info_supportsVision : bool
}.

(** The object literal, as the list of its properties. *)
Definition LLM_PROVIDERS : list (jsstring * LLMProviderInfo) :=
  [ (str "openai",
     {| info_name := str "openai";
        displayName := str "OpenAI";
        info_models := [str "gpt-4"; str "gpt-4-turbo"; str "gpt-3.5-turbo";
                        str "gpt-4o"; str "gpt-4o-mini"];
        info_supportsAttachments := true;
        info_supportsVision := true |});
    (str "anthropic",
     {| info_name := str "anthropic";
        displayName := str "Anthropic";
        info_models := [str "claude-3-5-sonnet-20241022";
                        str "claude-3-5-haiku-20241022";
                        str "claude-3-opus-20240229"];
        info_supportsAttachments := true;
        info_supportsVision := true |});
    (str "gemini",
     {| info_name := str "gemini";
        displayName := str "Google Gemini";
        info_models := [str "gemini-2.0-flash-exp"; str "gemini-1.5-pro";
                        str "gemini-1.5-flash"; str "gemini-1.0-pro"];
        info_supportsAttachments := true;
        info_supportsVision := true |}) ].

Record LLMConfig := {
  config_provider : jsstring;
  config_model : jsstring;
  config_apiKey : jsstring;
  config_baseUrl : option jsstring;
  config_temperature : option number;
  config_maxTokens : option number
}.

Definition createLLMProvider (config : LLMConfig)
  : outcome LLMProviderInterface :=
  ProviderFactory.createProvider (config_provider config)
    (config_apiKey config) (config_baseUrl config).

(** ** The constructors of the adapters ([llm/providers/openai.ts],
    [anthropic.ts], [gemini.ts]) *)

(** The settings with which a constructor creates the client of the
    vendor's SDK; a setting that the object does not have is [None]. *)
Record ClientSettings := {
  settings_apiKey : option jsstring;
  settings_baseURL : option jsstring
}.

(** The variable of [process.env] that the constructor of a class reads. *)
Definition env_key (env : Env) (c : ProviderClass) : option jsstring :=
  match c with
  | OpenAIProvider => OPENAI_API_KEY env
  | AnthropicProvider => ANTHROPIC_API_KEY env
  | GeminiProvider => GOOGLE_AI_API_KEY env
  end.

(** [{ apiKey: apiKey || process.env.<KEY>,
       ...(baseUrl && { baseURL: baseUrl }) }], the same in the three
    constructors but for the variable. *)
Definition client_settings (env : Env) (p : LLMProviderInterface)
  : ClientSettings :=
  {| settings_apiKey :=
       if is_empty (apiKey p) then env_key env (provider_class p)
       else Some (apiKey p);
     settings_baseURL :=
       match baseUrl p with
       | Some u => if is_empty u then None else Some u
       | None => None
       end |}.

(** ** The import of submissions ([services/json-parser.ts]) *)

Module JsonParser.

(** A submission after validation by the schema: the defaults are filled
    in, [createdAt] is a string, and [answers] is the list that
    [Object.entries] gives. *)
Record QuestionData := {
  id : jsstring;
  questionType : jsstring;
  questionText : jsstring
}.

Record SubmissionQuestion := {
  rev : number;
  data : QuestionData
}.

Record ValidatedSubmission := {
  sub_id : jsstring;
  queueId : jsstring;
  labelingTaskId : option jsstring;
  createdAt : jsstring;
  questions : list SubmissionQuestion;
  answers_entries : list (jsstring * json)
}.

Record Submission := {
  submission_id : jsstring;
  labeling_task_id : option jsstring;
  created_at : option jsstring
}.

Record QuestionTemplate := {
  question_template_id : jsstring;
  revision : number;
  question_text : jsstring;
  question_type : option jsstring;
  qt_created_at : option jsstring
}.

Record Answer := {
  answer_id : jsstring;
  a_submission_id : jsstring;
  a_question_template_id : jsstring;
  question_revision : number;
  answer_value : json;
  a_created_at : option jsstring
}.

Record AnswerQueue := {
  aq_answer_id : jsstring;
  queue_id : jsstring
}.

Record ParsedSubmissionData := {
  submissions : list Submission;
  question_templates : list QuestionTemplate;
  answers : list Answer;
  answer_queues : list AnswerQueue
}.

(** The outside world of an import: what [crypto.randomUUID()] and
    [new Date().toISOString()] give at their successive calls. *)
Record World := {
  randomUUID : nat -> jsstring;
  now : nat -> jsstring
}.

(** The variables of [parseSubmissionData] while its loops run, with the
    numbers of identifiers and of dates drawn so far. *)
Record State := {
  st_submissions : list Submission;
  st_questionTemplates : list QuestionTemplate;
  st_answers : list Answer;
  st_answerQueues : list AnswerQueue;
  st_questionTemplateSet : list jsstring;
  uuids_drawn : nat;
  dates_drawn : nat
}.

Definition initial : State :=
  {| st_submissions := [];
     st_questionTemplates := [];
     st_answers := [];
     st_answerQueues := [];
     st_questionTemplateSet := [];
     uuids_drawn := 0;
     dates_drawn := 0 |}.

Definition n_1 : number := Num false 1 0.

(** [rev || 1] *)
Definition rev_or_1 (r : number) : number :=
  if number_is_zero r then n_1 else r.

(** [labelingTaskId || null] *)
Definition truthy_string (s : option jsstring) : option jsstring :=
  match s with
  | Some v => if is_empty v then None else Some v
  | None => None
  end.

Section Loops.
Variable w : World.

(** One turn of the loop over the questions of a submission. *)
Definition add_question (st : State) (submissionQuestion : SubmissionQuestion)
  : State :=
  let questionData := data submissionQuestion in
  if negb (array_includes (st_questionTemplateSet st) (id questionData))
  then
    {| st_submissions := st_submissions st;
       st_questionTemplates :=
         st_questionTemplates st
           ++ [ {| question_template_id := id questionData;
                   revision := rev_or_1 (rev submissionQuestion);
                   question_text := questionText questionData;
                   question_type := Some (questionType questionData);
                   qt_created_at := Some (now w (dates_drawn st)) |} ];
       st_answers := st_answers st;
       st_answerQueues := st_answerQueues st;
       st_questionTemplateSet :=
         st_questionTemplateSet st ++ [id questionData];
       uuids_drawn := uuids_drawn st;
       dates_drawn := S (dates_drawn st) |}
  else st.

(** One turn of the loop over the answers of a submission. *)
Definition add_answer (submission : ValidatedSubmission) (st : State)
  (entry : jsstring * json) : State :=
  let (questionId, answerData) := entry in
  match find (fun qt => Js.eqb (question_template_id qt) questionId)
             (st_questionTemplates st) with
  | Some questionTemplate =>
      let answerId := randomUUID w (uuids_drawn st) in
      {| st_submissions := st_submissions st;
         st_questionTemplates := st_questionTemplates st;
         st_answers :=
           st_answers st
             ++ [ {| answer_id := answerId;
                     a_submission_id := sub_id submission;
                     a_question_template_id := questionId;
                     question_revision := revision questionTemplate;
                     answer_value := answerData;
                     a_created_at := Some (now w (dates_drawn st)) |} ];
         st_answerQueues :=
           st_answerQueues st
             ++ [ {| aq_answer_id := answerId;
                     queue_id := queueId submission |} ];
         st_questionTemplateSet := st_questionTemplateSet st;
         uuids_drawn := S (uuids_drawn st);
         dates_drawn := S (dates_drawn st) |}
  | None => st
  end.

(** One turn of the loop over the submissions. *)
Definition add_submission (st : State) (submission : ValidatedSubmission)
  : State :=
  let st1 :=
    {| st_submissions :=
         st_submissions st
           ++ [ {| submission_id := sub_id submission;
                   labeling_task_id := truthy_string (labelingTaskId submission);
                   created_at := Some (createdAt submission) |} ];
       st_questionTemplates := st_questionTemplates st;
       st_answers := st_answers st;
       st_answerQueues := st_answerQueues st;
       st_questionTemplateSet := st_questionTemplateSet st;
       uuids_drawn := uuids_drawn st;
       dates_drawn := dates_drawn st |} in
  let st2 := fold_left add_question (questions submission) st1 in
  fold_left (add_answer submission) (answers_entries submission) st2.

(** The [try] block of [parseSubmissionData] after the validation: the
    data of the result that it returns with [success: true]. *)
Definition parseSubmissionData_validated
  (validatedData : list ValidatedSubmission) : ParsedSubmissionData :=
  let st := fold_left add_submission validatedData initial in
  {| submissions := st_submissions st;
     question_templates := st_questionTemplates st;
     answers := st_answers st;
     answer_queues := st_answerQueues st |}.

End Loops.

(** [[...new Set(values)]]: the values without their repetitions, each at
    its first place. *)
Definition distinct (values : list jsstring) : list jsstring :=
  fold_left
    (fun seen v => if array_includes seen v then seen else seen ++ [v])
    values [].

Record ImportStats := {
  submissionCount : nat;
  questionTemplateCount : nat;
  answerCount : nat;
  queueIds : list jsstring
}.

Definition getImportStats (d : ParsedSubmissionData) : ImportStats :=
  let queueIds := distinct (map queue_id (answer_queues d)) in
  {| submissionCount := List.length (submissions d);
     questionTemplateCount := List.length (question_templates d);
     answerCount := List.length (answers d);
     queueIds := queueIds |}.

End JsonParser.

(** * Vocabulary of the further properties *)

(** The provider of the judge of a task, as read while grouping. *)
Definition grouping_provider (work : Work) : option jsstring :=
  match getJudge (judge_when_grouping (snd work)) (task_judge_id (fst work))
  with
  | Returns judge => Some (provider judge)
  | Throws _ => None
  end.

(** The tasks of a list whose judge, as read while grouping, has the
    provider [k]. *)
Definition tasks_of_provider (k : jsstring) (works : list Work) : list Work :=
  filter (fun work =>
            match grouping_provider work with
            | Some p => Js.eqb p k
            | None => false
            end) works.

(** A group after more tasks were pushed: the group that was, then the
    tasks; no group when there was none and no task came. *)
Definition extended_group (A : Type) (group : option (list A))
  (more : list A) : option (list A) :=
  match group, more with
  | None, [] => None
  | _, _ => Some (nullish_or group [] ++ more)
  end.

(** The summary of a run with no task. *)
Definition zero_summary : EvaluationSummary :=
  {| total := 0; completed := 0; failed := 0; errors := [] |}.

(** The run with another answer to the query of the attachments. *)
Definition with_attachments_response (r : Response (list Attachment))
  (w : RunWorld) : RunWorld :=
  {| answers_response := answers_response w;
     attachments_response := r;
     answer_judges_response := answer_judges_response w;
     task_world := task_world w |}.

(** The attachments of an answer among those that the query returned. *)
Definition attachments_of (answerId : jsstring) (atts : list Attachment)
  : list Attachment :=
  filter (fun att => Js.eqb (att_answer_id att) answerId) atts.

(** The assignment rows of an answer. *)
Definition assignments_of (answerId : jsstring) (rows : list AnswerJudgeRow)
  : list AnswerJudgeRow :=
  filter (fun aj => Js.eqb (aj_answer_id aj) answerId) rows.

(** The text has a unit that [trim] does not strip. *)
Definition has_visible_unit (s : jsstring) : bool :=
  existsb (fun c => negb (is_trim_space c)) s.

(** The identifiers of the questions of the submissions of an import, in
    the order of the loops. *)
Definition question_ids (submissions : list JsonParser.ValidatedSubmission)
  : list jsstring :=
  flat_map
    (fun submission =>
       map (fun q => JsonParser.id (JsonParser.data q))
           (JsonParser.questions submission))
    submissions.

(** What the variables of an import keep true while the loops run: the set
    of the identifiers seen holds the identifiers of the templates, in
    their order and once each; the answers have the identifiers drawn so
    far, in the order of the draws; the rows of [answer_queues] go with
    the answers; and every answer has the identifier and the revision of
    a template. *)
Definition consistent (w : JsonParser.World) (st : JsonParser.State) : Prop :=
  map JsonParser.question_template_id (JsonParser.st_questionTemplates st)
  = JsonParser.st_questionTemplateSet st
  /\ NoDup (JsonParser.st_questionTemplateSet st)
  /\ map JsonParser.answer_id (JsonParser.st_answers st)
     = map (JsonParser.randomUUID w) (seq 0 (JsonParser.uuids_drawn st))
  /\ map JsonParser.aq_answer_id (JsonParser.st_answerQueues st)
     = map JsonParser.answer_id (JsonParser.st_answers st)
  /\ Forall
       (fun a =>
          exists qt,
            In qt (JsonParser.st_questionTemplates st)
            /\ JsonParser.question_template_id qt
               = JsonParser.a_question_template_id a
            /\ JsonParser.revision qt = JsonParser.question_revision a)
       (JsonParser.st_answers st).

(** ** More inputs of the examples *)

Module Sample.

Definition photo : Attachment :=
  {| attachment_id := str "p1"; att_answer_id := str "a1";
     url := str "https://files.example/p1.png";
     type := Some (str "image/png"); created_at := None |}.

Definition report : Attachment :=
  {| attachment_id := str "p2"; att_answer_id := str "a2";
     url := str "https://files.example/p2.pdf";
     type := Some (str "application/pdf"); created_at := None |}.

Definition scan : Attachment :=
  {| attachment_id := str "p3"; att_answer_id := str "a1";
     url := str "https://files.example/p3";
     type := None; created_at := None |}.

(** The run of the examples, with three attachments; the query of the
    attachments also reports an error. *)
Definition run_with_attachments : RunWorld :=
  with_attachments_response
    {| data := Some [photo; report; scan];
       db_error := Some (str "statement timeout") |}
    Example.run.

(** The run of the examples when no judge is assigned. *)
Definition run_unassigned : RunWorld :=
  {| answers_response := answers_response Example.run;
     attachments_response := attachments_response Example.run;
     answer_judges_response := {| data := Some []; db_error := None |};
     task_world := task_world Example.run |}.

(** The run of the examples when the query of the assignments fails. *)
Definition run_no_judges : RunWorld :=
  {| answers_response := answers_response Example.run;
     attachments_response := attachments_response Example.run;
     answer_judges_response :=
       {| data := None; db_error := Some (str "permission denied") |};
     task_world := task_world Example.run |}.

(** A task whose judge cannot be read while the tasks are grouped. *)
Definition judge_lost_when_grouping : Work :=
  (Example.task_of "a2" "j1",
   {| judge_when_grouping := Example.lost "connection reset";
      judge_in_slot := Example.found Example.judge_openai;
      model_world := Example.world_pass;
      insert_error := fun _ => None |}).

(** The vendor answers in prose. *)
Definition world_prose : ModelWorld :=
  {| generateText := fun _ =>
       Returns {| text := str "The answer looks correct to me.";
                  sdk_usage := None |};
     randomUUID := str "0002" |}.

(** A configuration with the empty key and the empty URL. *)
Definition bare_config : LLMConfig :=
  {| config_provider := str "openai";
     config_model := str "gpt-4o";
     config_apiKey := [];
     config_baseUrl := Some [];
     config_temperature := None;
     config_maxTokens := None |}.

(** A result with a verdict outside the three and no reasoning. *)
Definition odd_result : EvaluationResult :=
  {| verdict := JString (str "maybe"); reasoning := JNull |}.

Definition odd_result_validated : EvaluationResult :=
  {| verdict := JString (str "inconclusive");
     reasoning :=
       JString (str "Invalid verdict received: maybe. No reasoning provided.") |}.

(** The world of an import: the identifiers and the dates by the number
    of the draw. *)
Definition import_world : JsonParser.World :=
  {| JsonParser.randomUUID := fun n => str "uuid-" ++ [(48 + N.of_nat n)%N];
     JsonParser.now := fun _ => str "2024-01-01T00:00:00.000Z" |}.

Definition question (id : string) (rev : N) : JsonParser.SubmissionQuestion :=
  {| JsonParser.rev := Num false rev 0;
     JsonParser.data :=
       {| JsonParser.id := str id;
          JsonParser.questionType := str "text";
          JsonParser.questionText := str "Is the sky blue?" |} |}.

(** A file of one submission: the question q1 twice, the question q2, an
    answer to q1 and an answer to a question that the file does not
    have. *)
Definition import_file : list JsonParser.ValidatedSubmission :=
  [ {| JsonParser.sub_id := str "s1";
       JsonParser.queueId := str "queue_1";
       JsonParser.labelingTaskId := None;
       JsonParser.createdAt := str "2023-12-31T00:00:00.000Z";
       JsonParser.questions := [question "q1" 2; question "q2" 0;
                                question "q1" 3];
       JsonParser.answers_entries :=
         [ (str "q1", JString (str "yes")); (str "q9", JString (str "no")) ]
    |} ].

Definition imported_answer : JsonParser.Answer :=
  {| JsonParser.answer_id := str "uuid-0";
     JsonParser.a_submission_id := str "s1";
     JsonParser.a_question_template_id := str "q1";
     JsonParser.question_revision := Num false 2 0;
     JsonParser.answer_value := JString (str "yes");
     JsonParser.a_created_at := Some (str "2024-01-01T00:00:00.000Z") |}.

End Sample.

(** * Properties *)

(** ** Strings *)

Lemma startsWith_includes (s p : jsstring) :
  startsWith s p = true -> includes s p = true.
Proof.
  intros H. destruct s as [|c s].
  - change (startsWith [] p || false = true). now rewrite H.
  - change (startsWith (c :: s) p || includes s p = true). now rewrite H.
Qed.

(** A text that includes a word includes the word without its first unit. *)
Lemma includes_tail (s p : jsstring) (x : N) :
  includes s (x :: p) = true -> includes s p = true.
Proof.
  induction s as [|c s IH].
  - simpl. discriminate.
  - intros H.
    change (startsWith (c :: s) (x :: p) || includes s (x :: p) = true) in H.
    change (startsWith (c :: s) p || includes s p = true).
    apply orb_true_iff in H. apply orb_true_iff. right.
    destruct H as [H | H].
    + simpl in H. apply andb_true_iff in H. destruct H as [_ H].
      now apply startsWith_includes.
    + now apply IH.
Qed.

(** The word "incorrect" never decides the keyword scan: a text that
    includes it includes "correct". *)
Lemma incorrect_includes_correct (s : jsstring) :
  includes s (str "incorrect") = true -> includes s (str "correct") = true.
Proof.
  intros H. change (str "incorrect") with (105 :: 110 :: str "correct")%N in H.
  now apply includes_tail in H; apply includes_tail in H.
Qed.

Lemma from_first_nonempty (c : N) (s suffix : jsstring) :
  from_first c s = Some suffix -> s <> [].
Proof. destruct s; simpl; [discriminate | intros _; discriminate]. Qed.

Lemma match_braces_nonempty (text m : jsstring) :
  match_braces text = Some m -> text <> [].
Proof.
  unfold match_braces. destruct (from_first 123 text) eqn:F; [|discriminate].
  intros _. eapply from_first_nonempty; eassumption.
Qed.

Lemma startsWith_prefixes (p s : jsstring) :
  startsWith s p = true -> In p (prefixes s).
Proof.
  revert s. induction p as [|x p IH]; intros s H.
  - destruct s; left; reflexivity.
  - destruct s as [|y s]; [discriminate|]. simpl in H.
    apply andb_true_iff in H. destruct H as [Hx Hp].
    apply N.eqb_eq in Hx. subst y. right.
    apply in_map. now apply IH.
Qed.

(** Every text that [includes] finds is one of the substrings. *)
Lemma includes_substrings (s p : jsstring) :
  includes s p = true -> In p (substrings s).
Proof.
  unfold substrings. induction s as [|c s IH]; intros H.
  - change (startsWith [] p || false = true) in H.
    rewrite orb_false_r in H. apply startsWith_prefixes in H.
    simpl in *. exact H.
  - change (startsWith (c :: s) p || includes s p = true) in H.
    apply orb_true_iff in H.
    change (In p (prefixes (c :: s) ++ flat_map prefixes (suffixes s))).
    apply in_or_app. destruct H as [H | H].
    + left. now apply startsWith_prefixes.
    + right. now apply IH.
Qed.

Lemma from_first_split (c : N) (s suffix : jsstring) :
  from_first c s = Some suffix ->
  exists before rest,
    s = before ++ suffix /\ suffix = c :: rest /\ ~ In c before.
Proof.
  revert suffix. induction s as [|x s IH]; intros suffix; simpl.
  - discriminate.
  - destruct (N.eqb x c) eqn:X.
    + intros H; inversion H; subst suffix. apply N.eqb_eq in X. subst x.
      exists [], s. repeat split. intros [].
    + intros H. destruct (IH _ H) as (before & rest & -> & -> & N).
      exists (x :: before), rest. repeat split.
      intros [->|I]; [now rewrite N.eqb_refl in X | now apply N].
Qed.

Lemma upto_last_split (c : N) (s prefix : jsstring) :
  upto_last c s = Some prefix ->
  exists body after,
    s = prefix ++ after /\ prefix = body ++ [c] /\ ~ In c after.
Proof.
  unfold upto_last. destruct (from_first c (rev s)) as [r|] eqn:F;
    [|discriminate].
  intros H; inversion H; subst prefix; clear H.
  destruct (from_first_split _ _ F) as (before & rest & R & -> & N).
  exists (rev rest), (rev before). repeat split.
  - rewrite <- (rev_involutive s), R, rev_app_distr. reflexivity.
  - intros I. apply N. now apply in_rev.
Qed.

(** The match of the pattern: it starts at the first opening brace of the
    text and ends at its last closing brace. *)
Lemma match_braces_span (text m : jsstring) :
  match_braces text = Some m ->
  exists before body after,
    text = before ++ m ++ after
    /\ m = 123%N :: body ++ [125%N]
    /\ ~ In 123%N before
    /\ ~ In 125%N after.
Proof.
  unfold match_braces.
  destruct (from_first 123 text) as [suffix|] eqn:F; [|discriminate].
  intros U.
  destruct (from_first_split _ _ F) as (before & rest & -> & S & NB).
  destruct (upto_last_split _ _ U) as (body & after & S' & -> & NA).
  destruct body as [|b body].
  - rewrite S in S'. discriminate S'.
  - rewrite S in S'. inversion S'; subst b.
    exists before, body, after. rewrite S, S'.
    repeat split; assumption.
Qed.

(** ** The response parser of the adapters *)

Section ParserProperties.
Context {E : Engine}.

(** The parser on the JSON path: the braces match and the match parses. *)
Lemma parseEvaluationResult_json (text jsonMatch : jsstring) (parsed : json) :
  match_braces text = Some jsonMatch ->
  Json.parse jsonMatch = Some parsed ->
  parseEvaluationResult text =
    {| verdict := js_or (property_of parsed (str "verdict"))
                        (JString (str "inconclusive"));
       reasoning := js_or (property_of parsed (str "reasoning"))
                          (JString text) |}.
Proof.
  intros M P. unfold parseEvaluationResult, parseEvaluationResult_try.
  rewrite M. unfold JSON_parse. rewrite P.
  destruct parsed; reflexivity.
Qed.

(** The parser when the braces match and the match does not parse. *)
Lemma parseEvaluationResult_malformed (text jsonMatch : jsstring) :
  match_braces text = Some jsonMatch ->
  Json.parse jsonMatch = None ->
  parseEvaluationResult text =
    {| verdict := JString (str "inconclusive"); reasoning := JString text |}.
Proof.
  intros M P. unfold parseEvaluationResult, parseEvaluationResult_try.
  rewrite M. unfold JSON_parse. rewrite P. reflexivity.
Qed.

(** The parser on the fallback path: the braces do not match. *)
Lemma parseEvaluationResult_fallback (text : jsstring) :
  match_braces text = None ->
  parseEvaluationResult text =
    {| verdict := JString (keyword_verdict text); reasoning := JString text |}.
Proof.
  intros M. unfold parseEvaluationResult, parseEvaluationResult_try.
  rewrite M. reflexivity.
Qed.

(** C3, as amended: JSON extraction comes before the keyword scan.  When
    the span from the first opening brace of the text to its last closing
    brace parses as JSON, the verdict is the truthy [verdict] property of
    the parsed value and "inconclusive" otherwise, whatever words the text
    has around; when that span does not parse, the result is inconclusive
    with the raw text.  The keyword scan decides only a text with no such
    span. *)
Theorem json_extraction_before_keywords (text jsonMatch : jsstring) :
  match_braces text = Some jsonMatch ->
  (forall parsed,
      Json.parse jsonMatch = Some parsed ->
      verdict (parseEvaluationResult text)
      = js_or (property_of parsed (str "verdict"))
              (JString (str "inconclusive")))
  /\ (Json.parse jsonMatch = None ->
      parseEvaluationResult text
      = {| verdict := JString (str "inconclusive");
           reasoning := JString text |}).
Proof.
  intros M. split.
  - intros parsed P. now rewrite (parseEvaluationResult_json _ M P).
  - intros P. now apply parseEvaluationResult_malformed with jsonMatch.
Qed.

(** C4, as amended: a text in which the pattern finds no match, that is
    in which no closing brace follows the first opening brace, goes through
    the keyword scan of its lower-cased form: a pass word gives "pass",
    otherwise a fail word gives "fail", otherwise the verdict is
    "inconclusive"; the reasoning is the raw text. *)
Theorem keyword_fallback (text : jsstring) :
  match_braces text = None ->
  let lowerText := toLowerCase text in
  let pass_word :=
    includes lowerText (str "pass") || includes lowerText (str "correct")
    || includes lowerText (str "good") in
  let fail_word :=
    includes lowerText (str "fail") || includes lowerText (str "incorrect")
    || includes lowerText (str "bad") in
  reasoning (parseEvaluationResult text) = JString text
  /\ verdict (parseEvaluationResult text)
     = JString (if pass_word then str "pass"
                else if fail_word then str "fail"
                else str "inconclusive").
Proof.
  intros M. rewrite (parseEvaluationResult_fallback _ M). split; reflexivity.
Qed.

(** C10: on the JSON path a missing or falsy [reasoning] gives the raw
    text as the reasoning, a missing or falsy [verdict] gives
    "inconclusive", and the reasoning is never the empty string. *)
Theorem json_path_defaults (text jsonMatch : jsstring) (parsed : json) :
  match_braces text = Some jsonMatch ->
  Json.parse jsonMatch = Some parsed ->
  (missing_or_falsy (property_of parsed (str "reasoning")) ->
   reasoning (parseEvaluationResult text) = JString text)
  /\ (missing_or_falsy (property_of parsed (str "verdict")) ->
      verdict (parseEvaluationResult text) = JString (str "inconclusive"))
  /\ truthy (reasoning (parseEvaluationResult text)) = true
  /\ reasoning (parseEvaluationResult text) <> JString [].
Proof.
  intros M P. rewrite (parseEvaluationResult_json _ M P). simpl.
  assert (T : truthy (JString text) = true).
  { simpl. destruct text; [|reflexivity].
    now apply match_braces_nonempty in M. }
  assert (R : truthy (js_or (property_of parsed (str "reasoning"))
                            (JString text)) = true).
  { unfold js_or. destruct (property_of parsed (str "reasoning")) as [v|];
      [destruct (truthy v) eqn:Tv|]; assumption. }
  repeat split.
  - unfold missing_or_falsy, js_or.
    destruct (property_of parsed (str "reasoning")) as [v|]; [|reflexivity].
    now intros ->.
  - unfold missing_or_falsy, js_or.
    destruct (property_of parsed (str "verdict")) as [v|]; [|reflexivity].
    now intros ->.
  - exact R.
  - intros H. rewrite H in R. discriminate.
Qed.

End ParserProperties.

(** ** The model call of the adapters *)

(** Every adapter passes the request's temperature, 0.7 by default. *)
Lemma call_temperature (c : ProviderClass) (request : LLMRequest)
  (cacheId : jsstring) :
  opt_temperature (generateText_options c request cacheId)
  = Some (nullish_or (temperature request) n_0_7).
Proof. destruct c; reflexivity. Qed.

(** The OpenAI and Anthropic adapters pass the request's [maxTokens], 1000
    by default, as [maxOutputTokens]. *)
Lemma call_max_output_tokens (request : LLMRequest) (cacheId : jsstring) :
  opt_maxOutputTokens (generateText_options OpenAIProvider request cacheId)
  = Some (nullish_or (maxTokens request) n_1000)
  /\ opt_maxOutputTokens
       (generateText_options AnthropicProvider request cacheId)
     = Some (nullish_or (maxTokens request) n_1000).
Proof. split; reflexivity. Qed.

(** C9, the code against the claim: the Gemini adapter passes no
    [maxOutputTokens] to the model call, whatever [maxTokens] the request
    gives; the claim has it pass the request's [maxTokens] or 1000. *)
Theorem gemini_call_omits_max_output_tokens (request : LLMRequest)
  (cacheId : jsstring) :
  opt_maxOutputTokens (generateText_options GeminiProvider request cacheId)
  = None
  /\ opt_maxOutputTokens (generateText_options GeminiProvider request cacheId)
     <> Some (nullish_or (maxTokens request) n_1000).
Proof. split; [reflexivity | discriminate]. Qed.

(** ** Maps *)

Lemma JsMap_get_set (V : Type) (m : JsMap.t V) (k k' : jsstring) (v : V) :
  JsMap.get (JsMap.set m k v) k'
  = if Js.eqb k k' then Some v else JsMap.get m k'.
Proof.
  induction m as [|[k0 v0] m IH]; simpl.
  - reflexivity.
  - destruct (Js.eqb k0 k) eqn:E0; simpl.
    + apply Js.eqb_eq in E0. subst k0.
      destruct (Js.eqb k k'); reflexivity.
    + rewrite IH. destruct (Js.eqb k0 k') eqn:E1; [|reflexivity].
      apply Js.eqb_eq in E1. subst k'. now rewrite Js.eqb_sym, E0.
Qed.

(** ** The registry *)

(** C7, as amended: the client is built whatever the environment holds;
    [isProviderAvailable] answers true exactly for the providers whose
    credential is set and not empty; [getProvider] returns an adapter for
    those and throws the not-configured error for every other identifier;
    the list of [getAvailableProviders] is the factory's list of the three
    supported providers, whatever the credentials. *)
Theorem registry_availability (env : Env) :
  exists client,
    LLMClient.new env = Returns client
    /\ LLMClient.getAvailableProviders client
       = [str "openai"; str "anthropic"; str "gemini"]
    /\ forall provider,
        LLMClient.isProviderAvailable client provider
        = configured env provider
        /\ (configured env provider = true ->
            exists p,
              LLMClient.getProvider client provider = Returns p
              /\ provider_name (provider_class p) = provider
              /\ Some (apiKey p) = present (credential env provider))
        /\ (configured env provider = false ->
            LLMClient.getProvider client provider
            = Throws (not_configured_error provider)).
Proof.
  destruct env as [o a g].
  unfold LLMClient.new, LLMClient.register, configured, credential,
    LLMClient.isProviderAvailable, LLMClient.getProvider, JsMap.has.
  cbn [OPENAI_API_KEY ANTHROPIC_API_KEY GOOGLE_AI_API_KEY].
  destruct (present o) as [ko|] eqn:Po;
    destruct (present a) as [ka|] eqn:Pa;
    destruct (present g) as [kg|] eqn:Pg;
    (eexists; split; [reflexivity | split; [reflexivity | ]]);
    intros provider; rewrite ?JsMap_get_set;
    change (JsMap.get (JsMap.empty LLMProviderInterface) provider)
      with (@None LLMProviderInterface);
    by_provider provider; rewrite ?Po, ?Pa, ?Pg;
    (repeat split;
     solve [ discriminate | reflexivity
           | intros _; eexists; repeat split; reflexivity ]).
Qed.

(** The factory's allow-lists for OpenAI and Gemini are those of the
    adapters. *)
Lemma allow_lists_agree_openai_gemini (client : LLMClient.t)
  (model : jsstring) :
  LLMClient.validateProviderConfig client (str "openai") model
  = validateModel OpenAIProvider model
  /\ LLMClient.validateProviderConfig client (str "gemini") model
     = validateModel GeminiProvider model.
Proof.
  split; [|reflexivity].
  change (array_includes
            [str "gpt-4"; str "gpt-4-turbo"; str "gpt-3.5-turbo";
             str "gpt-4o"; str "gpt-4o-mini"] model
          = array_includes
              [str "gpt-4"; str "gpt-4-turbo"; str "gpt-4o";
               str "gpt-4o-mini"; str "gpt-3.5-turbo"] model).
  unfold array_includes. cbn [existsb].
  repeat match goal with
         | |- context [Js.eqb ?k model] => destruct (Js.eqb k model)
         end; reflexivity.
Qed.

(** C8, the code against the claim: the registry rejects a model that the
    Anthropic adapter accepts; the claim has the two agree.  The factory's
    list for Anthropic lacks two models of the adapter's list. *)
Theorem anthropic_allow_lists_disagree (client : LLMClient.t) :
  LLMClient.validateProviderConfig client (str "anthropic")
    (str "claude-3-sonnet-20240229") = false
  /\ validateModel AnthropicProvider (str "claude-3-sonnet-20240229") = true
  /\ LLMClient.validateProviderConfig client (str "anthropic")
       (str "claude-3-haiku-20240307") = false
  /\ validateModel AnthropicProvider (str "claude-3-haiku-20240307") = true.
Proof. repeat split; vm_compute; reflexivity. Qed.

(** ** The user prompt *)

Section PromptProperties.
Context {E : Engine}.

(** C6, as amended: the user prompt is the concatenation, in this order,
    of the sections question text, question type, formatted answer data
    and formatted attachments, each left out when its flag is false (and
    the attachments also when there are none), followed by the closing
    instruction.  There is no section for the submission metadata: the
    prompt is the one of the specification with that section always left
    out. *)
Theorem user_prompt_sections (formatMetadata : json -> jsstring)
  (this : PromptBuilder.t) (context : EvaluationContext) :
  PromptBuilder.buildUserPrompt this context
  = spec_userPrompt formatMetadata
      (without_metadata (includedFields (PromptBuilder.configMetadata this)))
      context
  /\ forall metadata,
      PromptBuilder.buildUserPrompt this (with_metadata metadata context)
      = PromptBuilder.buildUserPrompt this context.
Proof.
  split; [|reflexivity].
  unfold PromptBuilder.buildUserPrompt, PromptBuilder.sections,
    spec_userPrompt, without_metadata, present_sections.
  destruct (includedFields (PromptBuilder.configMetadata this))
    as [f1 f2 f3 f4 f5].
  cbn [inc_questionText inc_questionType inc_answerData
       inc_submissionMetadata inc_attachments flat_map].
  destruct (submissionMetadata context);
    destruct f1, f2, f3, f5;
    destruct (attachments context) as [[|att atts]|]; reflexivity.
Qed.

End PromptProperties.

(** ** The executor *)

Section ExecutorProperties.
Context {E : Engine}.

Lemma valid_verdict_cases (v : json) :
  is_valid_verdict v = true ->
  exists s, v = JString s
            /\ (s = str "pass" \/ s = str "fail" \/ s = str "inconclusive").
Proof.
  destruct v as [| | |s| |]; try discriminate.
  unfold is_valid_verdict, array_includes. cbn [existsb].
  rewrite !orb_true_iff, !Js.eqb_eq. intros H. exists s.
  split; [reflexivity|]. intuition (subst; auto); discriminate.
Qed.

(** Validation returns well-formed results only. *)
Lemma parseEvaluationResponse_well_formed (result r : EvaluationResult) :
  parseEvaluationResponse result = Returns r -> well_formed r.
Proof.
  destruct result as [v rs]. unfold parseEvaluationResponse.
  cbn [verdict reasoning].
  destruct (is_valid_verdict v) eqn:V; cbn [negb].
  - destruct (valid_verdict_cases _ V) as [s [-> Hs]].
    destruct (truthy rs) eqn:T; cbn [negb bind].
    + destruct rs as [| | |s'| |]; cbn [trimmed_is_empty bind];
        try discriminate.
      destruct (is_empty (trim s')); intros H; inversion H; subst r;
        exists s; eexists; (split; [reflexivity | split; [exact Hs |]]).
      * discriminate.
      * destruct s'; [discriminate T | discriminate].
    + intros H; inversion H; subst r.
      exists s; eexists; (split; [reflexivity | split; [exact Hs |]]).
      discriminate.
  - destruct (ToString v) as [sv|]; cbn [bind]; [|discriminate].
    destruct (ToString _) as [sr|]; cbn [bind]; [|discriminate].
    intros H; inversion H; subst r.
    eexists; eexists; (split; [reflexivity | split; [auto |]]).
    discriminate.
Qed.

Lemma evaluation_failed_well_formed (e : thrown) :
  well_formed (evaluation_failed e).
Proof.
  eexists; eexists; (split; [reflexivity | split; [auto |]]). discriminate.
Qed.

Lemma executeEvaluation_caught (llmClient : LLMClient.t) (w : ModelWorld)
  (judge : Judge) (context : EvaluationContext) (e : thrown) :
  executeEvaluation_try llmClient w judge context = Throws e ->
  executeEvaluation llmClient w judge context = evaluation_failed e.
Proof. unfold executeEvaluation. now intros ->. Qed.

(** An adapter throws [Error]s only, with the vendor's prefix. *)
Lemma evaluate_throws (p : LLMProviderInterface) (w : ModelWorld)
  (request : LLMRequest) (e : thrown) :
  evaluate p w request = Throws e ->
  exists message,
    e = ThrownError (failure_prefix (provider_class p) ++ message).
Proof.
  unfold evaluate, try_catch.
  destruct (generateText w _) as [r|e0]; cbn [bind]; [discriminate|].
  intros H; inversion H. eexists; reflexivity.
Qed.

(** C1: [executeEvaluation] returns a well-formed result for every judge,
    context, registry and behaviour of the outside world: the verdict is
    "pass", "fail" or "inconclusive" and the reasoning is a string that is
    not empty.  When the provider is not configured, or the adapter call
    throws, the result is inconclusive with the reasoning
    "Evaluation failed: " followed by the message of the error. *)
Theorem executeEvaluation_total (llmClient : LLMClient.t) (w : ModelWorld)
  (judge : Judge) (context : EvaluationContext) :
  well_formed (executeEvaluation llmClient w judge context)
  /\ (forall e,
         LLMClient.getProvider llmClient (provider judge) = Throws e ->
         e = not_configured_error (provider judge)
         /\ executeEvaluation llmClient w judge context = evaluation_failed e)
  /\ (forall p e,
         LLMClient.getProvider llmClient (provider judge) = Returns p ->
         evaluate p w (executor_request judge context) = Throws e ->
         executeEvaluation llmClient w judge context = evaluation_failed e)
  /\ (forall e,
         executeEvaluation_try llmClient w judge context = Throws e ->
         executeEvaluation llmClient w judge context = evaluation_failed e).
Proof.
  split; [|split; [|split]]; [| | |apply executeEvaluation_caught].
  - unfold executeEvaluation.
    destruct (executeEvaluation_try llmClient w judge context) as [r|e] eqn:T.
    + unfold executeEvaluation_try in T.
      destruct (LLMClient.getProvider _ _) as [p|]; cbn [bind] in T;
        [|discriminate].
      destruct (evaluate p w _) as [response|]; cbn [bind] in T;
        [|discriminate].
      now apply parseEvaluationResponse_well_formed in T.
    + apply evaluation_failed_well_formed.
  - intros e G. split.
    + unfold LLMClient.getProvider in G.
      destruct (JsMap.get _ _); [discriminate|]. now inversion G.
    + apply executeEvaluation_caught. unfold executeEvaluation_try.
      now rewrite G.
  - intros p e G H. apply executeEvaluation_caught.
    unfold executeEvaluation_try. rewrite G. cbn [bind].
    unfold executor_request in H. cbn zeta in H. now rewrite H.
Qed.

End ExecutorProperties.

(** ** The orchestrator *)

Lemma Permutation_filter (A : Type) (f : A -> bool) (l l' : list A) :
  Permutation l l' -> Permutation (filter f l) (filter f l').
Proof.
  induction 1 as [|x l l' _ IH|x y l|l l' l'' _ IH1 _ IH2]; simpl.
  - constructor.
  - destruct (f x); [constructor|]; assumption.
  - destruct (f x), (f y); try reflexivity. constructor.
  - now transitivity (filter f l').
Qed.

Lemma flatten_set_new (V : Type) (m : JsMap.t (list V)) (k : jsstring) :
  JsMap.get m k = None -> flatten (JsMap.set m k []) = flatten m.
Proof.
  unfold flatten. induction m as [|[k0 g0] m IH]; simpl.
  - reflexivity.
  - destruct (Js.eqb k0 k); [discriminate|]. intros H. simpl.
    now rewrite IH.
Qed.

Lemma flatten_set_push (V : Type) (m : JsMap.t (list V)) (k : jsstring)
  (group : list V) (x : V) :
  JsMap.get m k = Some group ->
  Permutation (flatten (JsMap.set m k (group ++ [x]))) (x :: flatten m).
Proof.
  unfold flatten. induction m as [|[k0 g0] m IH]; simpl.
  - discriminate.
  - destruct (Js.eqb k0 k); simpl.
    + intros H; inversion H; subst g0. rewrite <- app_assoc. simpl.
      symmetry. apply Permutation_middle.
    + intros H. rewrite (IH H). symmetry. apply Permutation_middle.
Qed.

(** Grouping neither loses nor repeats a task. *)
Lemma grouping_permutation (tasks : list Work) :
  forall m m',
    groupTasksByProvider_from m tasks = Returns m' ->
    Permutation (flatten m') (tasks ++ flatten m).
Proof.
  induction tasks as [|task rest IH]; intros m m'; simpl.
  - intros H; inversion H. reflexivity.
  - destruct (getJudge _ _) as [judge|]; cbn [bind]; [|discriminate].
    set (m1 := if negb (JsMap.has m (provider judge))
               then JsMap.set m (provider judge) [] else m).
    assert (F : flatten m1 = flatten m).
    { unfold m1, JsMap.has.
      destruct (JsMap.get m (provider judge)) eqn:G; cbn [negb];
        [reflexivity | now apply flatten_set_new]. }
    destruct (JsMap.get m1 (provider judge)) as [group|] eqn:G;
      [|discriminate].
    intros H. apply IH in H. rewrite H.
    rewrite (flatten_set_push _ _ task G), F.
    symmetry. apply Permutation_middle.
Qed.

(** Grouping returns when every judge can be read. *)
Lemma grouping_returns (tasks : list Work) :
  (forall work,
      In work tasks ->
      exists judge,
        getJudge (judge_when_grouping (snd work)) (task_judge_id (fst work))
        = Returns judge) ->
  forall m, exists m', groupTasksByProvider_from m tasks = Returns m'.
Proof.
  induction tasks as [|task rest IH]; intros J m; simpl.
  - eexists; reflexivity.
  - destruct (J task (or_introl eq_refl)) as [judge ->]. cbn [bind].
    set (m1 := if negb (JsMap.has m (provider judge))
               then JsMap.set m (provider judge) [] else m).
    assert (G : exists group, JsMap.get m1 (provider judge) = Some group).
    { unfold m1, JsMap.has.
      destruct (JsMap.get m (provider judge)) as [group|] eqn:G; cbn [negb].
      - now exists group.
      - exists []. now rewrite JsMap_get_set, Js.eqb_refl. }
    destruct G as [group ->]. apply IH.
    intros work I. apply J. now right.
Qed.

Lemma JsMap_set_In (V : Type) (m : JsMap.t V) (k k' : jsstring) (v v' : V) :
  In (k', v') (JsMap.set m k v) -> (k' = k /\ v' = v) \/ In (k', v') m.
Proof.
  induction m as [|[k0 v0] m IH]; simpl.
  - intros [H|[]]. inversion H. now left.
  - destruct (Js.eqb k0 k) eqn:E0.
    + apply Js.eqb_eq in E0. subst k0. intros [H|H].
      * inversion H. now left.
      * right. now right.
    + intros [H|H]; [right; now left|].
      destruct (IH H) as [L|R]; [now left | right; now right].
Qed.

(** The groups are named by the providers of the judges of the tasks. *)
Lemma grouping_keys (tasks : list Work) :
  forall m m',
    groupTasksByProvider_from m tasks = Returns m' ->
    forall k g,
      In (k, g) m' ->
      (exists g0, In (k, g0) m)
      \/ exists work judge,
           In work tasks
           /\ getJudge (judge_when_grouping (snd work))
                       (task_judge_id (fst work)) = Returns judge
           /\ provider judge = k.
Proof.
  induction tasks as [|task rest IH]; intros m m'; simpl.
  - intros H; inversion H; subst m'. intros k g I. left. now exists g.
  - destruct (getJudge _ _) as [judge|] eqn:R; cbn [bind]; [|discriminate].
    set (m1 := if negb (JsMap.has m (provider judge))
               then JsMap.set m (provider judge) [] else m).
    destruct (JsMap.get m1 (provider judge)) as [group|]; [|discriminate].
    intros H k g I.
    destruct (IH _ _ H _ _ I) as [[g0 I0]|(work & j & Iw & Rw & <-)].
    + apply JsMap_set_In in I0. destruct I0 as [[-> _]|I0].
      * right. exists task, judge. repeat split; [now left | assumption].
      * unfold m1 in I0. destruct (negb _).
        -- apply JsMap_set_In in I0. destruct I0 as [[-> _]|I0].
           ++ right. exists task, judge.
              repeat split; [now left | assumption].
           ++ left. now exists g0.
        -- left. now exists g0.
    + right. exists work, j. repeat split; [now right | assumption].
Qed.

(** [getJudge] throws [Error]s only, with its own message. *)
Lemma getJudge_throws (response : Response Judge) (judgeId : jsstring)
  (e : thrown) :
  getJudge response judgeId = Throws e ->
  exists detail,
    e = ThrownError
          (str "Failed to fetch judge " ++ judgeId ++ str ": " ++ detail).
Proof.
  unfold getJudge.
  destruct (db_error response), (data response); intros H; inversion H;
    eexists; reflexivity.
Qed.

Section OrchestratorProperties.
Context {E : Engine}.

Lemma settle_slot_error (llmClient : LLMClient.t)
  (attachmentsByAnswer : JsMap.t (list Attachment)) (rateLimiter : nat)
  (work : Work) :
  settle llmClient attachmentsByAnswer rateLimiter work
  = match slot_error llmClient attachmentsByAnswer work with
    | Some message =>
        {| success := false; tr_task := fst work; tr_error := Some message |}
    | None =>
        {| success := true; tr_task := fst work; tr_error := None |}
    end.
Proof.
  destruct work as [task w].
  unfold settle, limited, slot, slot_error, storeEvaluationResult.
  cbn [fst snd].
  destruct (getJudge _ _) as [judge|e]; cbn [bind].
  - destruct (insert_error w _); reflexivity.
  - reflexivity.
Qed.

Lemma aggregate_results (results : list TaskResult) :
  forall summary,
    fold_left
      (fun summary result =>
         if success result
         then {| total := total summary;
                 completed := S (completed summary);
                 failed := failed summary;
                 errors := errors summary |}
         else {| total := total summary;
                 completed := completed summary;
                 failed := S (failed summary);
                 errors := errors summary ++ [error_entry result] |})
      results summary
    = {| total := total summary;
         completed :=
           completed summary + List.length (filter success results);
         failed := failed summary + List.length (filter is_failure results);
         errors :=
           errors summary ++ map error_entry (filter is_failure results) |}.
Proof.
  induction results as [|r results IH]; intros [t c f es]; simpl.
  - now rewrite !Nat.add_0_r, app_nil_r.
  - rewrite IH. unfold is_failure. destruct (success r); simpl.
    + f_equal; lia.
    + rewrite <- app_assoc. f_equal; lia.
Qed.

Lemma aggregate_all (allProviderResults : list (list TaskResult)) :
  forall summary,
    aggregate summary allProviderResults
    = {| total := total summary;
         completed :=
           completed summary
           + List.length (filter success (List.concat allProviderResults));
         failed :=
           failed summary
           + List.length (filter is_failure (List.concat allProviderResults));
         errors :=
           errors summary
           ++ map error_entry
                (filter is_failure (List.concat allProviderResults)) |}.
Proof.
  unfold aggregate.
  induction allProviderResults as [|rs rss IH]; intros [t c f es]; simpl.
  - now rewrite !Nat.add_0_r, app_nil_r.
  - change (fun summary result => _) with
      (fun summary result =>
         if success result
         then {| total := total summary;
                 completed := S (completed summary);
                 failed := failed summary;
                 errors := errors summary |}
         else {| total := total summary;
                 completed := completed summary;
                 failed := S (failed summary);
                 errors := errors summary ++ [error_entry result] |}) at 2.
    rewrite aggregate_results, IH. simpl.
    rewrite !filter_app, !map_app, !length_app, <- !app_assoc.
    f_equal; lia.
Qed.

Lemma settle_success (llmClient : LLMClient.t)
  (attachmentsByAnswer : JsMap.t (list Attachment)) (rateLimiter : nat)
  (work : Work) :
  success (settle llmClient attachmentsByAnswer rateLimiter work)
  = negb (slot_fails llmClient attachmentsByAnswer work).
Proof.
  rewrite settle_slot_error. unfold slot_fails.
  destruct (slot_error _ _ _); reflexivity.
Qed.

(** The promises of a list of tasks all resolve. *)
Lemma Promise_all_settled (A B : Type) (f : A -> B) (l : list A) :
  Promise_all (map (fun x => Returns (f x)) l) = Returns (map f l).
Proof.
  induction l as [|x l IH]; simpl; [reflexivity|]. now rewrite IH.
Qed.

(** The results of all the groups are the results of the tasks of all the
    groups: the limiter of a group does not change what a task gives. *)
Lemma results_of_groups (llmClient : LLMClient.t)
  (attachmentsByAnswer : JsMap.t (list Attachment))
  (groups : JsMap.t (list Work)) :
  forall allProviderResults,
    Promise_all
      (map (providerPromise llmClient attachmentsByAnswer)
           (JsMap.entries groups))
    = Returns allProviderResults ->
    List.concat allProviderResults
    = map (settle llmClient attachmentsByAnswer 0) (flatten groups).
Proof.
  unfold JsMap.entries, flatten.
  induction groups as [|[provider g] groups IH]; simpl; intros rss H.
  - inversion H. reflexivity.
  - destruct (createProviderRateLimiter provider) as [rateLimiter|];
      cbn [bind] in H; [|discriminate].
    rewrite Promise_all_settled in H. cbn [bind] in H.
    destruct (Promise_all _) as [others|]; cbn [bind] in H; [|discriminate].
    inversion H; subst rss. simpl. rewrite (IH others eq_refl), map_app.
    reflexivity.
Qed.

Lemma successes_of_tasks (llmClient : LLMClient.t)
  (attachmentsByAnswer : JsMap.t (list Attachment)) (works : list Work) :
  List.length
    (filter success (map (settle llmClient attachmentsByAnswer 0) works))
  = List.length
      (filter (fun work =>
                 negb (slot_fails llmClient attachmentsByAnswer work))
              works).
Proof.
  induction works as [|work works IH]; simpl; [reflexivity|].
  rewrite settle_success.
  destruct (slot_fails _ _ work); simpl; now rewrite IH.
Qed.

Lemma failures_of_tasks (llmClient : LLMClient.t)
  (attachmentsByAnswer : JsMap.t (list Attachment)) (works : list Work) :
  List.length
    (filter is_failure (map (settle llmClient attachmentsByAnswer 0) works))
  = List.length (filter (slot_fails llmClient attachmentsByAnswer) works).
Proof.
  induction works as [|work works IH]; simpl; [reflexivity|].
  unfold is_failure at 1. rewrite settle_success, negb_involutive.
  destruct (slot_fails _ _ work); simpl; now rewrite IH.
Qed.

Lemma entries_of_tasks (llmClient : LLMClient.t)
  (attachmentsByAnswer : JsMap.t (list Attachment)) (works : list Work) :
  map error_entry
    (filter is_failure (map (settle llmClient attachmentsByAnswer 0) works))
  = failure_entries llmClient attachmentsByAnswer works.
Proof.
  induction works as [|work works IH]; simpl; [reflexivity|].
  unfold is_failure at 1. rewrite settle_slot_error.
  destruct (slot_error _ _ work); simpl; now rewrite IH.
Qed.

Lemma failure_entries_length (llmClient : LLMClient.t)
  (attachmentsByAnswer : JsMap.t (list Attachment)) (works : list Work) :
  List.length (failure_entries llmClient attachmentsByAnswer works)
  = List.length (filter (slot_fails llmClient attachmentsByAnswer) works).
Proof.
  unfold failure_entries, slot_fails.
  induction works as [|work works IH]; simpl; [reflexivity|].
  destruct (slot_error _ _ work); simpl; now rewrite ?length_app, IH.
Qed.

(** The summary of a batch, by the tasks it was given: the counters count
    the tasks whose slot ran to its end and those whose slot threw, and the
    failure list holds one entry for each of the latter. *)
Lemma executeEvaluations_summary (llmClient : LLMClient.t)
  (works : list Work) (attachmentsByAnswer : JsMap.t (list Attachment))
  (summary : EvaluationSummary) :
  executeEvaluations llmClient works attachmentsByAnswer = Returns summary ->
  total summary = List.length works
  /\ completed summary
     = List.length
         (filter (fun work =>
                    negb (slot_fails llmClient attachmentsByAnswer work))
                 works)
  /\ failed summary
     = List.length (filter (slot_fails llmClient attachmentsByAnswer) works)
  /\ Permutation (errors summary)
                 (failure_entries llmClient attachmentsByAnswer works).
Proof.
  unfold executeEvaluations, groupTasksByProvider.
  destruct (groupTasksByProvider_from _ works) as [groups|] eqn:G;
    cbn [bind]; [|discriminate].
  apply grouping_permutation in G.
  change (flatten (JsMap.empty (list Work))) with (@nil Work) in G.
  rewrite app_nil_r in G.
  destruct (Promise_all _) as [allProviderResults|] eqn:P; cbn [bind];
    [|discriminate].
  apply results_of_groups in P.
  intros H; inversion H; subst summary; clear H.
  rewrite aggregate_all, P.
  cbn [total completed failed errors Nat.add app].
  rewrite successes_of_tasks, failures_of_tasks, entries_of_tasks.
  repeat split.
  - apply Permutation_length. now apply Permutation_filter.
  - apply Permutation_length. now apply Permutation_filter.
  - unfold failure_entries. now rewrite G.
Qed.

(** The limiter of a provider is created unless the provider's name is
    the name of a property of [Object.prototype]. *)
Lemma limiter_created (provider : jsstring) :
  array_includes Object_prototype_properties provider = false ->
  exists rateLimiter, createProviderRateLimiter provider = Returns rateLimiter.
Proof.
  intros O. unfold createProviderRateLimiter, getRateLimit. rewrite O.
  unfold RATE_LIMITS. cbn [JsMap.get].
  repeat match goal with
         | |- context [Js.eqb ?k provider] => destruct (Js.eqb k provider)
         end; eexists; reflexivity.
Qed.

Lemma providerPromises_resolve (llmClient : LLMClient.t)
  (attachmentsByAnswer : JsMap.t (list Attachment))
  (groups : JsMap.t (list Work)) :
  (forall entry,
      In entry groups ->
      array_includes Object_prototype_properties (fst entry) = false) ->
  exists allProviderResults,
    Promise_all (map (providerPromise llmClient attachmentsByAnswer) groups)
    = Returns allProviderResults.
Proof.
  induction groups as [|[provider g] groups IH]; intros O; simpl.
  - eexists; reflexivity.
  - destruct (limiter_created provider (O (provider, g) (or_introl eq_refl)))
      as [rateLimiter ->].
    cbn [bind]. rewrite Promise_all_settled. cbn [bind].
    destruct IH as [others ->]; [intros entry I; apply O; now right|].
    eexists; reflexivity.
Qed.

(** A batch returns a summary when every judge can be read while grouping
    and no provider has the name of a property of [Object.prototype],
    whatever happens to the tasks afterwards. *)
Lemma executeEvaluations_returns (llmClient : LLMClient.t)
  (works : list Work) (attachmentsByAnswer : JsMap.t (list Attachment)) :
  (forall work,
      In work works ->
      exists judge,
        getJudge (judge_when_grouping (snd work)) (task_judge_id (fst work))
        = Returns judge
        /\ array_includes Object_prototype_properties (provider judge)
           = false) ->
  exists summary,
    executeEvaluations llmClient works attachmentsByAnswer = Returns summary.
Proof.
  intros J. unfold executeEvaluations, groupTasksByProvider.
  destruct (grouping_returns works) with (m := JsMap.empty (list Work))
    as [groups G].
  { intros work I. destruct (J work I) as (judge & R & _). now exists judge. }
  rewrite G. cbn [bind].
  destruct (providerPromises_resolve llmClient attachmentsByAnswer groups)
    as [allProviderResults P].
  { intros [k g] I. destruct (grouping_keys _ _ G _ _ I) as [[g0 []]|X].
    destruct X as (work & judge & Iw & R & <-).
    destruct (J work Iw) as (judge' & R' & O). rewrite R in R'.
    now inversion R'; subst judge'. }
  unfold JsMap.entries. rewrite P. cbn [bind]. eexists; reflexivity.
Qed.

Lemma with_worlds_length (w : RunWorld) (tasks : list EvaluationTask) :
  List.length (with_worlds w tasks) = List.length tasks.
Proof.
  unfold with_worlds.
  rewrite length_map, length_combine, length_seq. apply Nat.min_id.
Qed.

(** C2: in every summary that [runEvaluations] returns, [total] is the
    number of tasks built for the queue and [completed + failed = total]:
    [completed] counts the tasks whose slot ran to its end, [failed] the
    others, which are the entries of the failure list. *)
Theorem no_task_lost (llmClient : LLMClient.t) (w : RunWorld)
  (queueId : jsstring) (summary : EvaluationSummary) :
  runEvaluations llmClient w queueId = Returns summary ->
  exists d,
    fetchEvaluationData w queueId = Returns d
    /\ total summary = List.length (tasks d)
    /\ completed summary + failed summary = total summary
    /\ completed summary
       = List.length
           (filter (fun work =>
                      negb (slot_fails llmClient (attachmentsByAnswer d) work))
                   (with_worlds w (tasks d)))
    /\ failed summary
       = List.length
           (filter (slot_fails llmClient (attachmentsByAnswer d))
                   (with_worlds w (tasks d)))
    /\ List.length (errors summary) = failed summary.
Proof.
  unfold runEvaluations.
  destruct (fetchEvaluationData w queueId) as [d|] eqn:F; cbn [bind];
    [|discriminate].
  intros H. exists d. split; [reflexivity|].
  destruct (Nat.eqb (List.length (tasks d)) 0) eqn:Z.
  - inversion H; subst summary; clear H. apply Nat.eqb_eq in Z.
    destruct (tasks d); [|discriminate]. cbn. repeat split; reflexivity.
  - apply executeEvaluations_summary in H.
    destruct H as (T & C & Fl & Er).
    rewrite with_worlds_length in T.
    repeat split; try assumption.
    + rewrite C, Fl, T, <- (with_worlds_length w (tasks d)).
      rewrite Nat.add_comm. apply filter_length.
    + rewrite (Permutation_length Er), Fl. apply failure_entries_length.
Qed.

(** C5, as amended: the failure list of a batch holds exactly the tasks
    whose slot threw, each once and with the message of what was thrown:
    either the judge could not be read inside the slot, or the insert of
    the evaluation row failed.  A task whose insert fails is in the list
    with the message of the storage error and counts as failed; a task
    whose judge cannot be read inside the slot is in the list with the
    message of that read and counts as failed in the same way; a task
    whose judge is read and whose insert succeeds counts as completed,
    whatever its verdict; an error of the evaluation itself never reaches
    the list, it is in the stored result.  The list is, up to the order
    of the groups, the list of the entries of the tasks whose slot threw,
    and [failed] is their number. *)
Theorem failure_list (llmClient : LLMClient.t) (works : list Work)
  (attachmentsByAnswer : JsMap.t (list Attachment))
  (summary : EvaluationSummary) :
  executeEvaluations llmClient works attachmentsByAnswer = Returns summary ->
  (forall entry,
      In entry (errors summary) ->
      exists work,
        In work works /\ task entry = fst work
        /\ ((exists detail,
                getJudge (judge_in_slot (snd work)) (task_judge_id (fst work))
                = Throws (ThrownError (error entry))
                /\ error entry
                   = str "Failed to fetch judge " ++ task_judge_id (fst work)
                       ++ str ": " ++ detail)
            \/ (exists judge message,
                   getJudge (judge_in_slot (snd work))
                            (task_judge_id (fst work)) = Returns judge
                   /\ insert_error (snd work)
                        (executeEvaluation llmClient (model_world (snd work))
                           judge
                           (task_context attachmentsByAnswer (fst work)))
                      = Some message
                   /\ error entry
                      = str "Failed to store evaluation result: " ++ message)))
  /\ (forall work judge message,
         In work works ->
         getJudge (judge_in_slot (snd work)) (task_judge_id (fst work))
         = Returns judge ->
         insert_error (snd work)
           (executeEvaluation llmClient (model_world (snd work)) judge
              (task_context attachmentsByAnswer (fst work)))
         = Some message ->
         In {| task := fst work;
               error := str "Failed to store evaluation result: " ++ message |}
            (errors summary))
  /\ failed summary = List.length (errors summary)
  /\ completed summary
     = List.length
         (filter
            (fun work =>
               match getJudge (judge_in_slot (snd work))
                              (task_judge_id (fst work)) with
               | Returns judge =>
                   match insert_error (snd work)
                           (executeEvaluation llmClient
                              (model_world (snd work)) judge
                              (task_context attachmentsByAnswer (fst work)))
                   with
                   | None => true
                   | Some _ => false
                   end
               | Throws _ => false
               end)
            works)
  /\ (forall work message,
         In work works ->
         getJudge (judge_in_slot (snd work)) (task_judge_id (fst work))
         = Throws (ThrownError message) ->
         In {| task := fst work; error := message |} (errors summary))
  /\ failed summary
     = List.length (filter (slot_fails llmClient attachmentsByAnswer) works)
  /\ Permutation (errors summary)
                 (failure_entries llmClient attachmentsByAnswer works).
Proof.
  intros H. apply executeEvaluations_summary in H.
  destruct H as (_ & C & Fl & Er).
  split; [|split; [|split; [|split; [|split; [|split]]]]];
    [| | | | | exact Fl | exact Er].
  - intros entry I. apply (Permutation_in _ Er) in I.
    unfold failure_entries in I. apply in_flat_map in I.
    destruct I as (work & Iw & I). exists work. split; [assumption|].
    unfold slot_error in I.
    destruct (getJudge _ _) as [judge|e] eqn:G.
    + cbn zeta in I. destruct (insert_error _ _) as [message|] eqn:S;
        [|contradiction].
      destruct I as [<-|[]]. split; [reflexivity|].
      right. exists judge, message. repeat split; assumption.
    + destruct I as [<-|[]]. split; [reflexivity|]. left.
      destruct (getJudge_throws _ _ G) as [detail ->].
      exists detail. split; reflexivity.
  - intros work judge message Iw G S.
    apply (Permutation_in _ (Permutation_sym Er)).
    unfold failure_entries. apply in_flat_map. exists work.
    split; [assumption|]. unfold slot_error. rewrite G. cbn zeta.
    rewrite S. now left.
  - rewrite (Permutation_length Er), Fl. symmetry.
    apply failure_entries_length.
  - rewrite C. f_equal. apply filter_ext. intros work.
    unfold slot_fails, slot_error.
    destruct (getJudge _ _); [|reflexivity]. cbn zeta.
    destruct (insert_error _ _); reflexivity.
  - intros work message Iw G.
    apply (Permutation_in _ (Permutation_sym Er)).
    unfold failure_entries. apply in_flat_map. exists work.
    split; [assumption|]. unfold slot_error. rewrite G. now left.
Qed.

End OrchestratorProperties.

(** * The properties on examples *)

Section Examples.
#[local] Existing Instance Reference.engine.
Import Example.

(** The model's answer of the specification: the object wins over the
    words around it. *)
Example parse_specification_scenario :
  parseEvaluationResult
    (str "Here is my answer: " ++ verdict_object "pass" "Looks correct")
  = {| verdict := JString (str "pass");
       reasoning := JString (str "Looks correct") |}.
Proof. vm_compute. reflexivity. Qed.

(** The client of the example environment. *)
Example client_of_env : LLMClient.new env = Returns client.
Proof. vm_compute. reflexivity. Qed.

(** The run of the example: two tasks completed, one failed. *)
Example run_summary :
  runEvaluations client run (str "queue_1") = Returns summary.
Proof. vm_compute. reflexivity. Qed.

(** C3, witness: the words say "pass", the object says "fail", the verdict
    is "fail". *)
Lemma json_extraction_before_keywords_witness :
  match_braces prose_and_json = Some (verdict_object "fail" "wrong unit")
  /\ keyword_verdict prose_and_json = str "pass"
  /\ verdict (parseEvaluationResult prose_and_json) = JString (str "fail").
Proof.
  assert (M : match_braces prose_and_json
              = Some (verdict_object "fail" "wrong unit"))
    by (vm_compute; reflexivity).
  split; [exact M | split; [vm_compute; reflexivity |]].
  refine (proj1 (json_extraction_before_keywords prose_and_json M)
            (JObject [(str "verdict", JString (str "fail"));
                      (str "reasoning", JString (str "wrong unit"))]) _).
  vm_compute. reflexivity.
Defined.

(** C3, counterexample: the text contains an object that parses and whose
    verdict is "fail"; the span from the first opening brace to the last
    closing brace does not parse, and the verdict is "inconclusive". *)
Lemma json_extraction_counterexample :
  ~ (forall text object members v,
        includes text object = true ->
        Json.parse object = Some (JObject members) ->
        own_property (str "verdict") members = Some v ->
        truthy v = true ->
        verdict (parseEvaluationResult text) = v).
Proof.
  intros H.
  specialize (H braces_in_prose (verdict_object "fail" "wrong unit")
                [(str "verdict", JString (str "fail"));
                 (str "reasoning", JString (str "wrong unit"))]
                (JString (str "fail"))).
  assert (X : verdict (parseEvaluationResult braces_in_prose)
              = JString (str "fail"))
    by (apply H; vm_compute; reflexivity).
  vm_compute in X. discriminate X.
Qed.

(** C4, witness: the scenario of the specification. *)
Lemma keyword_fallback_witness :
  match_braces plain_prose = None
  /\ reasoning (parseEvaluationResult plain_prose) = JString plain_prose
  /\ verdict (parseEvaluationResult plain_prose) = JString (str "pass").
Proof.
  assert (M : match_braces plain_prose = None) by (vm_compute; reflexivity).
  split; [exact M|].
  destruct (keyword_fallback plain_prose M) as [R V].
  split; [exact R | exact V].
Defined.

(** C4, counterexample: no substring of the text is a JSON object and the
    text has a pass word; the braces match, the match does not parse, and
    the verdict is "inconclusive". *)
Lemma keyword_fallback_counterexample :
  ~ (forall text,
        (forall object, includes text object = true ->
                        is_json_object object = false) ->
        verdict (parseEvaluationResult text)
        = JString (keyword_verdict text)).
Proof.
  intros H.
  assert (X : verdict (parseEvaluationResult prose_with_braces)
              = JString (keyword_verdict prose_with_braces)).
  { apply H. intros object I. apply includes_substrings in I.
    assert (A : forallb (fun o => negb (is_json_object o))
                        (substrings prose_with_braces) = true)
      by (vm_compute; reflexivity).
    rewrite forallb_forall in A. apply A in I.
    now apply negb_true_iff in I. }
  vm_compute in X. discriminate X.
Qed.

(** C10, witness: an empty verdict and no reasoning. *)
Lemma json_path_defaults_witness :
  match_braces empty_verdict = Some empty_verdict
  /\ reasoning (parseEvaluationResult empty_verdict) = JString empty_verdict
  /\ verdict (parseEvaluationResult empty_verdict)
     = JString (str "inconclusive").
Proof.
  assert (M : match_braces empty_verdict = Some empty_verdict)
    by (vm_compute; reflexivity).
  assert (P : Json.parse empty_verdict
              = Some (JObject [(str "verdict", JString []);
                               (str "score", JNumber (Num false 3 0))]))
    by (vm_compute; reflexivity).
  split; [exact M|].
  destruct (json_path_defaults empty_verdict M P) as (R & V & _).
  split; [apply R; exact I | apply V; reflexivity].
Defined.

(** C7, witness: OpenAI is configured, Gemini has an empty credential. *)
Lemma registry_availability_witness :
  exists client,
    LLMClient.new env = Returns client
    /\ LLMClient.isProviderAvailable client (str "openai") = true
    /\ (exists p, LLMClient.getProvider client (str "openai") = Returns p
                  /\ apiKey p = str "sk-test")
    /\ LLMClient.isProviderAvailable client (str "gemini") = false
    /\ LLMClient.getProvider client (str "gemini")
       = Throws (not_configured_error (str "gemini")).
Proof.
  destruct (registry_availability env) as (c & N & _ & H).
  exists c. split; [exact N|].
  destruct (H (str "openai")) as (A1 & B1 & _).
  destruct (H (str "gemini")) as (A2 & _ & C2).
  split; [rewrite A1; reflexivity|].
  split.
  { destruct (B1 eq_refl) as (p & G & _ & K). exists p. split; [exact G|].
    now inversion K. }
  split; [rewrite A2; reflexivity | apply C2; reflexivity].
Defined.

(** C7, counterexample: with no credential at all, "openai" is in the list
    of the available providers. *)
Lemma available_providers_counterexample :
  ~ (forall env client provider,
        LLMClient.new env = Returns client ->
        (In provider (LLMClient.getAvailableProviders client)
         <-> configured env provider = true)).
Proof.
  intros H.
  destruct (H no_credentials [] (str "openai") eq_refl) as [X _].
  assert (C : configured no_credentials (str "openai") = true)
    by (apply X; left; reflexivity).
  vm_compute in C. discriminate C.
Qed.

(** C6, counterexample: metadata enabled and present, and no section for
    them in the prompt, however they are formatted. *)
Lemma user_prompt_counterexample :
  ~ (exists formatMetadata,
        forall this context,
          PromptBuilder.buildUserPrompt this context
          = spec_userPrompt formatMetadata
              (includedFields (PromptBuilder.configMetadata this)) context).
Proof.
  intros [formatMetadata H].
  specialize (H {| PromptBuilder.judgeCustomPrompt := str "Be strict.";
                   PromptBuilder.configMetadata := executor_config |}
                context_sky).
  apply (f_equal (@List.length N)) in H.
  unfold spec_userPrompt in H. simpl in H.
  rewrite length_app in H. simpl in H. lia.
Qed.

(** C1, witness: a judge whose provider is not configured, and a network
    failure of the adapter call. *)
Lemma executeEvaluation_total_witness :
  well_formed (executeEvaluation client world_pass judge_openai context_sky)
  /\ executeEvaluation client world_down judge_anthropic context_sky
     = evaluation_failed (not_configured_error (str "anthropic"))
  /\ executeEvaluation client world_down judge_openai context_sky
     = evaluation_failed
         (ThrownError (str "OpenAI evaluation failed: network down")).
Proof.
  split; [|split].
  - exact (proj1 (executeEvaluation_total client world_pass judge_openai
                    context_sky)).
  - refine (proj2 (proj1 (proj2 (executeEvaluation_total client world_down
                                   judge_anthropic context_sky))
                     (not_configured_error (str "anthropic")) _)).
    vm_compute. reflexivity.
  - refine (proj1 (proj2 (proj2 (executeEvaluation_total client world_down
                                   judge_openai context_sky)))
              openai_adapter _ _ _).
    + vm_compute. reflexivity.
    + vm_compute. reflexivity.
Defined.

(** C2, witness: the run of the example. *)
Lemma no_task_lost_witness :
  runEvaluations client run (str "queue_1") = Returns summary
  /\ total summary = 3
  /\ completed summary + failed summary = total summary.
Proof.
  assert (H : runEvaluations client run (str "queue_1") = Returns summary)
    by (vm_compute; reflexivity).
  split; [exact H|].
  destruct (no_task_lost _ _ _ H) as (d & _ & _ & S & _).
  split; [reflexivity | exact S].
Defined.

(** C5, witness: the tasks of the example run; the third insert fails. *)
Lemma failure_list_witness :
  executeEvaluations client works (JsMap.empty _) = Returns summary
  /\ failed summary = List.length (errors summary)
  /\ In {| task := task_of "a3" "j2";
           error := str "Failed to store evaluation result: duplicate key" |}
        (errors summary).
Proof.
  assert (H : executeEvaluations client works (JsMap.empty _)
              = Returns summary) by (vm_compute; reflexivity).
  split; [exact H|].
  destruct (failure_list _ _ _ H) as (_ & B & C & _).
  split; [exact C|].
  refine (B (task_of "a3" "j2", task_world run 2) judge_anthropic
            (str "duplicate key") _ _ _).
  - right. right. left. reflexivity.
  - reflexivity.
  - reflexivity.
Defined.

(** C5, counterexample: no insert fails, and the failure list holds the
    task whose judge could not be read inside the slot. *)
Lemma failure_list_counterexample :
  ~ (forall llmClient works attachmentsByAnswer summary,
        executeEvaluations llmClient works attachmentsByAnswer
        = Returns summary ->
        forall entry,
          In entry (errors summary) ->
          exists work result message,
            In work works
            /\ insert_error (snd work) result = Some message).
Proof.
  intros H.
  assert (R : executeEvaluations client judge_lost_in_slot (JsMap.empty _)
              = Returns summary_judge_lost) by (vm_compute; reflexivity).
  destruct (H _ _ _ _ R _ (or_introl eq_refl))
    as (work & result & message & [<-|[]] & S).
  discriminate S.
Qed.

End Examples.

(** * Further properties *)

(** ** Lists and strings *)

Lemma array_includes_In (l : list jsstring) (x : jsstring) :
  array_includes l x = true <-> In x l.
Proof.
  unfold array_includes. rewrite existsb_exists. split.
  - intros (y & I & Ey). apply Js.eqb_eq in Ey. now subst.
  - intros I. exists x. split; [assumption | apply Js.eqb_refl].
Qed.

Lemma Attachment_eta (att : Attachment) :
  {| attachment_id := attachment_id att;
     att_answer_id := att_answer_id att;
     url := url att;
     type := type att;
     created_at := created_at att |} = att.
Proof. now destruct att. Qed.

(** ** The tasks of a queue *)

(** The group of an answer in the map of the attachments, as the loop of
    [fetchEvaluationData] builds it. *)
Lemma attachments_grouped (atts : list Attachment) :
  forall (m : JsMap.t (list Attachment)) (answerId : jsstring),
    nullish_or
      (JsMap.get
         (fold_left
            (fun m attachment =>
               let existing :=
                 nullish_or (JsMap.get m (att_answer_id attachment)) [] in
               JsMap.set m (att_answer_id attachment)
                         (existing ++ [attachment]))
            atts m)
         answerId) []
    = nullish_or (JsMap.get m answerId) [] ++ attachments_of answerId atts.
Proof.
  induction atts as [|att atts IH]; intros m answerId; simpl.
  - now rewrite app_nil_r.
  - rewrite IH, JsMap_get_set.
    destruct (Js.eqb (att_answer_id att) answerId) eqn:Q; simpl.
    + apply Js.eqb_eq in Q. subst answerId. now rewrite <- app_assoc.
    + reflexivity.
Qed.

Section TaskProperties.
Context {E : Engine}.

(** X1: when a queue has tasks, the context of each task carries exactly
    the attachments that the query returned for the task's answer, in the
    order of the query, whatever error the query reports beside them. *)
Theorem task_sees_its_attachments (w : RunWorld) (queueId : jsstring)
  (d : EvaluationData) (task : EvaluationTask) :
  fetchEvaluationData w queueId = Returns d ->
  tasks d <> [] ->
  attachments (task_context (attachmentsByAnswer d) task)
  = Some (attachments_of (answer_id task)
            (nullish_or (data (attachments_response w)) [])).
Proof.
  unfold fetchEvaluationData.
  destruct (db_error (answers_response w)); [discriminate|].
  destruct (data (answers_response w)) as [[|a answers]|].
  - intros H; inversion H; subst d. intros N. now contradiction N.
  - destruct (buildEvaluationTasks _ _) as [ts|]; cbn [bind]; [|discriminate].
    intros H; inversion H; subst d; clear H. intros _.
    unfold task_context. cbn [attachments attachmentsByAnswer].
    rewrite attachments_grouped. cbn [JsMap.get JsMap.empty nullish_or app].
    f_equal. erewrite map_ext; [apply map_id|]. apply Attachment_eta.
  - intros H; inversion H; subst d. intros N. now contradiction N.
Qed.

End TaskProperties.

Lemma list_sum_zero (A : Type) (l : list A) :
  list_sum (map (fun _ => 0) l) = 0.
Proof. induction l; simpl; auto. Qed.

(** X2: when the query of the assignments reports no error, the tasks are
    built: one for every pair of an answer and an assignment row of that
    answer, answer after answer, so their number is the sum over the
    answers of the numbers of their rows; each task carries the answer's
    value and the row's judge.  With no row there is no task. *)
Theorem tasks_built (response : Response (list AnswerJudgeRow))
  (answers : list AnswerRow) :
  db_error response = None ->
  let rows := nullish_or (data response) [] in
  exists tasks,
    buildEvaluationTasks response answers = Returns tasks
    /\ List.length tasks
       = list_sum
           (map (fun answer =>
                   List.length (assignments_of (row_answer_id answer) rows))
                answers)
    /\ map (fun t => (answer_id t, task_judge_id t)) tasks
       = flat_map
           (fun answer =>
              map (fun row => (row_answer_id answer, judge_id (judges row)))
                  (assignments_of (row_answer_id answer) rows))
           answers
    /\ forall t,
        In t tasks ->
        exists answer row,
          In answer answers /\ In row rows
          /\ aj_answer_id row = row_answer_id answer
          /\ answer_id t = row_answer_id answer
          /\ task_judge_id t = judge_id (judges row)
          /\ task_answerData t = answer_value answer.
Proof.
  intros Err rows. unfold buildEvaluationTasks. rewrite Err.
  assert (G : forall rs,
             let ts :=
               flat_map
                 (fun answer =>
                    map (fun answerJudge =>
                           {| answer_id := row_answer_id answer;
                              task_judge_id := judge_id (judges answerJudge);
                              task_answerData := answer_value answer;
                              questionTemplateData :=
                                {| question_template_id :=
                                     row_question_template_id
                                       (question_templates answer);
                                   qt_questionType :=
                                     string_or
                                       (question_type
                                          (question_templates answer))
                                       (str "text");
                                   qt_questionText :=
                                     question_text (question_templates answer)
                                |} |})
                        (assignments_of (row_answer_id answer) rs))
                 answers in
             List.length ts
             = list_sum
                 (map (fun answer =>
                         List.length
                           (assignments_of (row_answer_id answer) rs))
                      answers)
             /\ map (fun t => (answer_id t, task_judge_id t)) ts
                = flat_map
                    (fun answer =>
                       map (fun row =>
                              (row_answer_id answer, judge_id (judges row)))
                           (assignments_of (row_answer_id answer) rs))
                    answers
             /\ forall t,
                 In t ts ->
                 exists answer row,
                   In answer answers /\ In row rs
                   /\ aj_answer_id row = row_answer_id answer
                   /\ answer_id t = row_answer_id answer
                   /\ task_judge_id t = judge_id (judges row)
                   /\ task_answerData t = answer_value answer).
  { intros rs ts. subst ts. split; [|split].
    - induction answers as [|a answers IH]; simpl; [reflexivity|].
      now rewrite length_app, length_map, IH.
    - induction answers as [|a answers IH]; simpl; [reflexivity|].
      now rewrite map_app, map_map, IH.
    - intros t I. apply in_flat_map in I. destruct I as (a & Ia & I).
      apply in_map_iff in I. destruct I as (row & <- & Ir).
      unfold assignments_of in Ir. apply filter_In in Ir.
      destruct Ir as [Ir Q]. apply Js.eqb_eq in Q.
      exists a, row. repeat split; assumption. }
  subst rows. destruct (data response) as [[|row rows]|]; cbn [nullish_or].
  - exists []. specialize (G []). cbn zeta in G.
    assert (Z : flat_map
                  (fun answer : AnswerRow =>
                     map (fun row : AnswerJudgeRow =>
                            (row_answer_id answer, judge_id (judges row)))
                         (assignments_of (row_answer_id answer) []))
                  answers = []).
    { clear. induction answers; simpl; auto. }
    split; [reflexivity|]. split; [|split].
    + simpl. unfold assignments_of. simpl. now rewrite list_sum_zero.
    + now rewrite Z.
    + intros t [].
  - eexists. split; [reflexivity|]. apply (G (row :: rows)).
  - exists []. split; [reflexivity|]. split; [|split].
    + simpl. unfold assignments_of. simpl. now rewrite list_sum_zero.
    + simpl. clear. induction answers; simpl; auto.
    + intros t [].
Qed.

(** ** The groups of a batch *)

Lemma grouping_groups (tasks : list Work) :
  forall m m',
    groupTasksByProvider_from m tasks = Returns m' ->
    forall k,
      JsMap.get m' k
      = extended_group (JsMap.get m k) (tasks_of_provider k tasks).
Proof.
  induction tasks as [|task rest IH]; intros m m'; simpl.
  - intros H; inversion H; subst m'. intros k.
    unfold extended_group. destruct (JsMap.get m k); simpl;
      now rewrite ?app_nil_r.
  - unfold grouping_provider.
    destruct (getJudge _ _) as [judge|]; cbn [bind]; [|discriminate].
    set (m1 := if negb (JsMap.has m (provider judge))
               then JsMap.set m (provider judge) [] else m).
    destruct (JsMap.get m1 (provider judge)) as [group|] eqn:G;
      [|discriminate].
    intros H k. rewrite (IH _ _ H k), JsMap_get_set.
    destruct (Js.eqb (provider judge) k) eqn:Q.
    + apply Js.eqb_eq in Q. subst k.
      assert (G0 : group = nullish_or (JsMap.get m (provider judge)) []).
      { unfold m1, JsMap.has in G.
        destruct (JsMap.get m (provider judge)) as [g0|] eqn:G1;
          cbn [negb] in G.
        - rewrite G1 in G. now inversion G.
        - rewrite JsMap_get_set, Js.eqb_refl in G. now inversion G. }
      subst group. unfold extended_group. cbn [nullish_or].
      destruct (JsMap.get m (provider judge)) as [g0|]; cbn [nullish_or].
      * now rewrite <- app_assoc.
      * now destruct (tasks_of_provider (provider judge) rest).
    + assert (G1 : JsMap.get m1 k = JsMap.get m k).
      { unfold m1. destruct (negb _); [|reflexivity].
        now rewrite JsMap_get_set, Q. }
      now rewrite G1.
Qed.

Lemma grouping_app (before after : list Work) :
  forall m,
    groupTasksByProvider_from m (before ++ after)
    = m' <- groupTasksByProvider_from m before ;;
      groupTasksByProvider_from m' after.
Proof.
  induction before as [|task rest IH]; intros m; simpl; [reflexivity|].
  destruct (getJudge _ _) as [judge|]; cbn [bind]; [|reflexivity].
  destruct (JsMap.get _ (provider judge)); [apply IH | reflexivity].
Qed.

(** X3: the map that grouping returns sends each provider name to the
    tasks whose judge, as read while grouping, has that provider, in the
    order of the batch; a name that no task has is not a key, so no group
    is empty. *)
Theorem groups_by_provider (tasks : list Work) (m : JsMap.t (list Work)) :
  groupTasksByProvider tasks = Returns m ->
  forall k,
    JsMap.get m k
    = match tasks_of_provider k tasks with
      | [] => None
      | group => Some group
      end.
Proof.
  intros H k. unfold groupTasksByProvider in H.
  rewrite (grouping_groups _ _ H k). cbn [JsMap.get JsMap.empty].
  unfold extended_group. now destruct (tasks_of_provider k tasks).
Qed.

Section BatchProperties.
Context {E : Engine}.

(** X4: a judge that cannot be read while the tasks are grouped makes the
    whole batch throw the error of that read, whatever the tasks before
    and after it would give: no summary is returned and nothing is counted
    as failed (a judge lost inside the slot only fails its own task). *)
Theorem judge_lost_while_grouping (llmClient : LLMClient.t)
  (attachmentsByAnswer : JsMap.t (list Attachment))
  (before after : list Work) (work : Work) (e : thrown) :
  (forall earlier,
      In earlier before ->
      exists judge,
        getJudge (judge_when_grouping (snd earlier))
                 (task_judge_id (fst earlier)) = Returns judge) ->
  getJudge (judge_when_grouping (snd work)) (task_judge_id (fst work))
  = Throws e ->
  executeEvaluations llmClient (before ++ work :: after) attachmentsByAnswer
  = Throws e
  /\ exists detail,
      e = ThrownError
            (str "Failed to fetch judge " ++ task_judge_id (fst work)
               ++ str ": " ++ detail).
Proof.
  intros J T. split; [|now apply getJudge_throws with (1 := T)].
  unfold executeEvaluations, groupTasksByProvider.
  rewrite grouping_app.
  destruct (grouping_returns before J (JsMap.empty (list Work))) as [m' ->].
  cbn [bind]. simpl. now rewrite T.
Qed.

(** X5: a run whose answers query gives no row, or whose assignments
    query gives no row, returns the summary of zeros. *)
Theorem run_without_tasks (llmClient : LLMClient.t) (w : RunWorld)
  (queueId : jsstring) :
  db_error (answers_response w) = None ->
  nullish_or (data (answers_response w)) [] = []
  \/ (db_error (answer_judges_response w) = None
      /\ nullish_or (data (answer_judges_response w)) [] = []) ->
  runEvaluations llmClient w queueId = Returns zero_summary.
Proof.
  intros A H. unfold runEvaluations, fetchEvaluationData. rewrite A.
  destruct (data (answers_response w)) as [[|a answers]|]; try reflexivity.
  destruct H as [H|[J H]]; [discriminate H|].
  unfold buildEvaluationTasks. rewrite J.
  destruct (data (answer_judges_response w)) as [[|r rows]|];
    try reflexivity.
  discriminate H.
Qed.

(** X6: an error of the answers query, or of the assignments query when
    there are answers, makes the run throw with the query's message after
    the words of the step; no summary is returned. *)
Theorem run_setup_errors (llmClient : LLMClient.t) (w : RunWorld)
  (queueId message : jsstring) :
  (db_error (answers_response w) = Some message ->
   runEvaluations llmClient w queueId
   = Throws (ThrownError (str "Failed to fetch answers: " ++ message)))
  /\ (db_error (answers_response w) = None ->
      nullish_or (data (answers_response w)) [] <> [] ->
      db_error (answer_judges_response w) = Some message ->
      runEvaluations llmClient w queueId
      = Throws (ThrownError (str "Failed to fetch judges: " ++ message))).
Proof.
  unfold runEvaluations, fetchEvaluationData, buildEvaluationTasks. split.
  - now intros ->.
  - intros -> N ->.
    destruct (data (answers_response w)) as [[|a answers]|];
      try (now contradiction N).
    reflexivity.
Qed.

(** X7: when every judge can be read, at grouping and inside the slot,
    no provider has the name of a property of [Object.prototype], and
    every insert succeeds, the batch returns a summary in which every
    task is completed and none failed, whatever the registry holds and
    whatever the models do. *)
Theorem all_stored_all_completed (llmClient : LLMClient.t)
  (works : list Work) (attachmentsByAnswer : JsMap.t (list Attachment)) :
  (forall work,
      In work works ->
      (exists judge,
          getJudge (judge_when_grouping (snd work))
                   (task_judge_id (fst work)) = Returns judge
          /\ array_includes Object_prototype_properties (provider judge)
             = false)
      /\ (exists judge,
             getJudge (judge_in_slot (snd work)) (task_judge_id (fst work))
             = Returns judge)
      /\ forall result, insert_error (snd work) result = None) ->
  executeEvaluations llmClient works attachmentsByAnswer
  = Returns {| total := List.length works;
               completed := List.length works;
               failed := 0;
               errors := [] |}.
Proof.
  intros H.
  destruct (executeEvaluations_returns llmClient works attachmentsByAnswer)
    as [summary R].
  { intros work I. now destruct (H work I). }
  rewrite R. f_equal.
  destruct (executeEvaluations_summary _ _ _ R) as (T & C & F & P).
  assert (N : forall work,
             In work works ->
             slot_error llmClient attachmentsByAnswer work = None).
  { intros work I. destruct (H work I) as (_ & [judge J] & S).
    unfold slot_error. now rewrite J, S. }
  assert (Fl : filter (slot_fails llmClient attachmentsByAnswer) works = []).
  { clear - N. induction works as [|work works IH]; simpl; [reflexivity|].
    unfold slot_fails at 1. rewrite (N work (or_introl eq_refl)).
    apply IH. intros w' I. apply N. now right. }
  assert (Fn : filter (fun work =>
                         negb (slot_fails llmClient attachmentsByAnswer work))
                      works = works).
  { clear - N. induction works as [|work works IH]; simpl; [reflexivity|].
    unfold slot_fails at 1. rewrite (N work (or_introl eq_refl)). simpl.
    f_equal. apply IH. intros w' I. apply N. now right. }
  assert (Fe : failure_entries llmClient attachmentsByAnswer works = []).
  { clear - N. unfold failure_entries.
    induction works as [|work works IH]; simpl; [reflexivity|].
    rewrite (N work (or_introl eq_refl)). simpl.
    apply IH. intros w' I. apply N. now right. }
  rewrite Fl in F. rewrite Fn in C. rewrite Fe in P.
  apply Permutation_sym, Permutation_nil in P.
  destruct summary; simpl in *. now subst.
Qed.

End BatchProperties.

(** ** What [trim] leaves *)

Lemma trim_start_blank (s : jsstring) :
  has_visible_unit s = false -> trim_start s = [].
Proof.
  unfold has_visible_unit. induction s as [|c s IH]; simpl; [reflexivity|].
  destruct (is_trim_space c); simpl; [exact IH | discriminate].
Qed.

Lemma trim_start_visible (s : jsstring) :
  has_visible_unit s = true -> has_visible_unit (trim_start s) = true.
Proof.
  unfold has_visible_unit. induction s as [|c s IH]; simpl; [discriminate|].
  destruct (is_trim_space c) eqn:S; simpl; [exact IH|].
  now rewrite S.
Qed.

Lemma has_visible_unit_rev (s : jsstring) :
  has_visible_unit (rev s) = has_visible_unit s.
Proof.
  unfold has_visible_unit. induction s as [|c s IH]; simpl; [reflexivity|].
  rewrite existsb_app, IH. simpl. rewrite orb_false_r. apply orb_comm.
Qed.

Lemma visible_not_empty (s : jsstring) :
  has_visible_unit s = true -> is_empty s = false.
Proof. now destruct s. Qed.

(** A string trims to the empty string exactly when it has no unit but
    white space and line terminators. *)
Lemma trim_is_empty (s : jsstring) :
  is_empty (trim s) = negb (has_visible_unit s).
Proof.
  unfold trim. destruct (has_visible_unit s) eqn:V; simpl.
  - apply visible_not_empty. rewrite has_visible_unit_rev.
    apply trim_start_visible. rewrite has_visible_unit_rev.
    now apply trim_start_visible.
  - now rewrite (trim_start_blank _ V).
Qed.

(** ** The parser of the adapters and the validation of the executor *)

Lemma js_or_truthy (a : option json) (b : json) :
  truthy b = true -> truthy (js_or a b) = true.
Proof.
  intros B. unfold js_or. destruct a as [v|]; [|exact B].
  now destruct (truthy v) eqn:V.
Qed.

Lemma js_or_falsy (a : option json) (b : json) :
  truthy (js_or a b) = false -> truthy b = false.
Proof.
  destruct (truthy b) eqn:B; [|reflexivity].
  now rewrite (js_or_truthy a _ B).
Qed.

Lemma keyword_verdict_cases (text : jsstring) :
  keyword_verdict text = str "pass"
  \/ keyword_verdict text = str "fail"
  \/ keyword_verdict text = str "inconclusive".
Proof.
  unfold keyword_verdict. cbn zeta.
  destruct (_ || _ || _); [now left|].
  destruct (_ || _ || _); [right; now left | right; now right].
Qed.

Lemma keyword_verdict_valid (text : jsstring) :
  array_includes [str "pass"; str "fail"; str "inconclusive"]
                 (keyword_verdict text) = true.
Proof.
  destruct (keyword_verdict_cases text) as [-> | [-> | ->]]; reflexivity.
Qed.

Section ReplyProperties.
Context {E : Engine}.

(** X8: for every text of the model, the verdict that an adapter's parser
    returns is truthy, and its reasoning is falsy for the empty text only,
    for which the result is inconclusive with the empty reasoning. *)
Theorem parser_result_truthy (text : jsstring) :
  truthy (verdict (parseEvaluationResult text)) = true
  /\ (truthy (reasoning (parseEvaluationResult text)) = false <-> text = []).
Proof.
  assert (P : truthy (verdict (parseEvaluationResult text)) = true
              /\ (truthy (reasoning (parseEvaluationResult text)) = false
                  -> text = [])).
  { unfold parseEvaluationResult, parseEvaluationResult_try.
    assert (T : forall t : jsstring, truthy (JString t) = false -> t = []).
    { intros [|c t]; [reflexivity | discriminate]. }
    destruct (match_braces text) as [jsonMatch|].
    - unfold JSON_parse. destruct (Json.parse jsonMatch) as [parsed|];
        cbn [bind raise]; [|split; [reflexivity | apply T]].
      destruct parsed; cbn [get_property bind raise verdict reasoning];
        (split; [try reflexivity; now apply js_or_truthy
                | intros F; apply T; try exact F;
                  now apply js_or_falsy in F]).
    - cbn [verdict reasoning]. split; [|apply T].
      now destruct (keyword_verdict_cases text) as [-> | [-> | ->]]. }
  destruct P as [V R]. split; [exact V|]. split; [exact R|].
  intros ->. reflexivity.
Qed.

(** X9: the validation of the executor never returns a blank reasoning:
    when it returns, the verdict is the verdict it was given or, for a
    verdict outside the three, "inconclusive", and the reasoning is a
    string with a unit that is neither white space nor a line
    terminator. *)
Theorem validation_reasoning_visible (given returned : EvaluationResult) :
  parseEvaluationResponse given = Returns returned ->
  exists v s,
    returned = {| verdict := JString v; reasoning := JString s |}
    /\ has_visible_unit s = true
    /\ (if is_valid_verdict (verdict given)
        then verdict given = JString v
        else v = str "inconclusive").
Proof.
  destruct given as [v rs]. unfold parseEvaluationResponse.
  cbn [verdict reasoning].
  destruct (is_valid_verdict v) eqn:V; cbn [negb].
  - destruct (valid_verdict_cases _ V) as [s [-> _]].
    destruct (truthy rs) eqn:T; cbn [negb bind].
    + destruct rs as [| | |s'| |]; cbn [trimmed_is_empty bind];
        try discriminate.
      rewrite trim_is_empty.
      destruct (has_visible_unit s') eqn:S; cbn [negb]; intros H;
        inversion H; subst returned; exists s; eexists;
        (split; [reflexivity | split; [|reflexivity]]);
        [exact S | reflexivity].
    + intros H; inversion H; subst returned. exists s; eexists.
      split; [reflexivity | split; reflexivity].
  - destruct (ToString v) as [sv|]; cbn [bind]; [|discriminate].
    destruct (ToString _) as [sr|]; cbn [bind]; [|discriminate].
    intros H; inversion H; subst returned. eexists; eexists.
    split; [reflexivity | split; reflexivity].
Qed.

(** X10: the validation changes nothing in a result that it returned:
    validating twice is validating once. *)
Theorem validation_idempotent (given returned : EvaluationResult) :
  parseEvaluationResponse given = Returns returned ->
  parseEvaluationResponse returned = Returns returned.
Proof.
  destruct given as [v rs]. unfold parseEvaluationResponse at 1.
  cbn [verdict reasoning].
  assert (K : forall (s t : jsstring),
             array_includes [str "pass"; str "fail"; str "inconclusive"] s
             = true ->
             has_visible_unit t = true ->
             parseEvaluationResponse
               {| verdict := JString s; reasoning := JString t |}
             = Returns {| verdict := JString s; reasoning := JString t |}).
  { intros s t S T. unfold parseEvaluationResponse.
    cbn [verdict reasoning is_valid_verdict]. rewrite S. cbn [negb].
    cbn [truthy]. rewrite (visible_not_empty _ T). cbn [negb bind].
    cbn [trimmed_is_empty bind]. now rewrite trim_is_empty, T. }
  destruct (is_valid_verdict v) eqn:V; cbn [negb].
  - destruct v as [| | |s| |]; try discriminate V. cbn in V.
    destruct (truthy rs) eqn:T; cbn [negb bind].
    + destruct rs as [| | |s'| |]; cbn [trimmed_is_empty bind];
        try discriminate.
      rewrite trim_is_empty.
      destruct (has_visible_unit s') eqn:S; cbn [negb]; intros H;
        inversion H; subst returned; now apply K.
    + intros H; inversion H; subst returned. now apply K.
  - destruct (ToString v) as [sv|]; cbn [bind]; [|discriminate].
    destruct (ToString _) as [sr|]; cbn [bind]; [|discriminate].
    intros H; inversion H; subst returned. now apply K.
Qed.

End ReplyProperties.

(** ** One evaluation, from the reply of the model to the stored result *)

Section EvaluationProperties.
Context {E : Engine}.

Lemma executeEvaluation_reply (llmClient : LLMClient.t) (w : ModelWorld)
  (judge : Judge) (context : EvaluationContext) (p : LLMProviderInterface)
  (r : GenerateTextResult) :
  LLMClient.getProvider llmClient (provider judge) = Returns p ->
  generateText w
    (generateText_options (provider_class p) (executor_request judge context)
                          (randomUUID w)) = Returns r ->
  executeEvaluation_try llmClient w judge context
  = parseEvaluationResponse (parseEvaluationResult (text r)).
Proof.
  intros G T. unfold executeEvaluation_try. rewrite G. cbn [bind].
  unfold executor_request in T. cbn zeta in T.
  unfold evaluate, try_catch. rewrite T. reflexivity.
Qed.

(** X11: when the provider of the judge is configured and the model call
    throws, the evaluation is inconclusive and its reasoning is
    "Evaluation failed: ", the words of the vendor's adapter, and the
    message of the error, or "Unknown error" for a thrown value that is
    not an [Error]. *)
Theorem model_failure_reported (llmClient : LLMClient.t) (w : ModelWorld)
  (judge : Judge) (context : EvaluationContext) (p : LLMProviderInterface)
  (e : thrown) :
  LLMClient.getProvider llmClient (provider judge) = Returns p ->
  generateText w
    (generateText_options (provider_class p) (executor_request judge context)
                          (randomUUID w)) = Throws e ->
  executeEvaluation llmClient w judge context
  = {| verdict := JString (str "inconclusive");
       reasoning :=
         JString (str "Evaluation failed: "
                    ++ failure_prefix (provider_class p)
                    ++ message_or e (fun _ => str "Unknown error")) |}.
Proof.
  intros G T. unfold executeEvaluation, executeEvaluation_try.
  rewrite G. cbn [bind].
  unfold executor_request in T. cbn zeta in T.
  unfold evaluate, try_catch. rewrite T. reflexivity.
Qed.

(** X12: when the provider of the judge is configured and the span of the
    reply from its first opening brace to its last closing brace parses to
    an object whose verdict is one of the three strings and whose
    reasoning is a string that is not blank, the evaluation is that
    verdict with that reasoning, whatever the reply has around the
    span. *)
Theorem json_reply_accepted (llmClient : LLMClient.t) (w : ModelWorld)
  (judge : Judge) (context : EvaluationContext) (p : LLMProviderInterface)
  (r : GenerateTextResult) (jsonMatch : jsstring) (parsed : json)
  (v s : jsstring) :
  LLMClient.getProvider llmClient (provider judge) = Returns p ->
  generateText w
    (generateText_options (provider_class p) (executor_request judge context)
                          (randomUUID w)) = Returns r ->
  match_braces (text r) = Some jsonMatch ->
  Json.parse jsonMatch = Some parsed ->
  property_of parsed (str "verdict") = Some (JString v) ->
  array_includes [str "pass"; str "fail"; str "inconclusive"] v = true ->
  property_of parsed (str "reasoning") = Some (JString s) ->
  has_visible_unit s = true ->
  executeEvaluation llmClient w judge context
  = {| verdict := JString v; reasoning := JString s |}.
Proof.
  intros G T M P V Vv R Rv. unfold executeEvaluation.
  rewrite (@executeEvaluation_reply _ _ _ _ _ _ G T).
  rewrite (parseEvaluationResult_json _ M P), V, R.
  assert (Nv : is_empty v = false).
  { destruct v; [discriminate Vv | reflexivity]. }
  unfold js_or, truthy. rewrite Nv, (visible_not_empty _ Rv). cbn [negb].
  unfold parseEvaluationResponse. cbn [verdict reasoning is_valid_verdict].
  rewrite Vv. cbn [negb truthy]. rewrite (visible_not_empty _ Rv).
  cbn [negb bind trimmed_is_empty]. now rewrite trim_is_empty, Rv.
Qed.

(** X13: when the provider of the judge is configured and the reply has
    no span from an opening brace to a closing brace, the verdict of the
    evaluation is the one of the keyword scan of the reply, and the
    reasoning is the reply, or the fixed sentence when the reply is empty
    or blank. *)
Theorem prose_reply_scanned (llmClient : LLMClient.t) (w : ModelWorld)
  (judge : Judge) (context : EvaluationContext) (p : LLMProviderInterface)
  (r : GenerateTextResult) :
  LLMClient.getProvider llmClient (provider judge) = Returns p ->
  generateText w
    (generateText_options (provider_class p) (executor_request judge context)
                          (randomUUID w)) = Returns r ->
  match_braces (text r) = None ->
  executeEvaluation llmClient w judge context
  = {| verdict := JString (keyword_verdict (text r));
       reasoning :=
         JString (if has_visible_unit (text r) then text r
                  else str "No detailed reasoning provided by the judge.") |}.
Proof.
  intros G T M. unfold executeEvaluation.
  rewrite (@executeEvaluation_reply _ _ _ _ _ _ G T).
  rewrite (parseEvaluationResult_fallback _ M).
  unfold parseEvaluationResponse. cbn [verdict reasoning is_valid_verdict].
  rewrite keyword_verdict_valid. cbn [negb truthy].
  destruct (text r) as [|c t] eqn:Q; [reflexivity|].
  cbn [is_empty negb bind trimmed_is_empty]. rewrite trim_is_empty.
  now destruct (has_visible_unit (c :: t)).
Qed.

End EvaluationProperties.

(** ** The prompt of a call *)


(** ** The factory and the table of the providers *)

(** X15: for an identifier that is not the name of a property of
    [Object.prototype], [createLLMProvider], which is the factory on the
    fields of its configuration, creates an adapter exactly when the
    identifier is in the list of [getAvailableProviders]; the adapter then
    has the identifier as its name, and its constructor creates the
    client of the SDK with the key of the configuration, or with the
    variable of the environment for that provider when the key is the
    empty string, and with the URL of the configuration only when there is
    one and it is not the empty string.  For every other identifier the
    factory throws "Unsupported provider: " and the identifier. *)
Theorem factory_creates_listed (config : LLMConfig) :
  array_includes Object_prototype_properties (config_provider config)
  = false ->
  (In (config_provider config) ProviderFactory.getAvailableProviders ->
   exists adapter,
     createLLMProvider config = Returns adapter
     /\ provider_name (provider_class adapter) = config_provider config
     /\ forall env,
         client_settings env adapter
         = {| settings_apiKey :=
                if is_empty (config_apiKey config)
                then credential env (config_provider config)
                else Some (config_apiKey config);
              settings_baseURL := present (config_baseUrl config) |})
  /\ (~ In (config_provider config) ProviderFactory.getAvailableProviders ->
      createLLMProvider config
      = Throws (ThrownError
                  (str "Unsupported provider: " ++ config_provider config))).
Proof.
  intros _. destruct config as [provider model key url temp tokens].
  unfold createLLMProvider, ProviderFactory.createProvider,
    ProviderFactory.config_of, ProviderFactory.getAvailableProviders,
    ProviderFactory.PROVIDER_CONFIGS, credential.
  cbn [config_provider config_apiKey config_baseUrl JsMap.get map fst].
  destruct (Js.eqb (str "openai") provider) eqn:O;
    [|destruct (Js.eqb (str "anthropic") provider) eqn:A;
      [|destruct (Js.eqb (str "gemini") provider) eqn:G]];
    try (match goal with
         | Q : Js.eqb _ provider = true |- _ =>
             apply Js.eqb_eq in Q; subst provider
         end;
         split; [intros _; eexists; repeat split; reflexivity|];
         intros N; contradiction N; simpl; now auto).
  split; [|reflexivity].
  intros [I|[I|[I|[]]]]; subst provider;
    [ now rewrite Js.eqb_refl in O | now rewrite Js.eqb_refl in A
    | now rewrite Js.eqb_refl in G ].
Qed.

(** X16: for an identifier that is not the name of a property of
    [Object.prototype], the registry accepts a model for a provider
    exactly when [getAvailableModels] lists it, and every model that it
    accepts is accepted by the adapter that the factory creates for that
    provider. *)
Theorem accepted_models_listed (provider model : jsstring) :
  array_includes Object_prototype_properties provider = false ->
  (ProviderFactory.validateModel provider model = true
   <-> In model (ProviderFactory.getAvailableModels provider))
  /\ (ProviderFactory.validateModel provider model = true ->
      forall key url,
      exists adapter,
        ProviderFactory.createProvider provider key url = Returns adapter
        /\ validateModel (provider_class adapter) model = true).
Proof.
  intros _. unfold ProviderFactory.validateModel,
    ProviderFactory.getAvailableModels, ProviderFactory.createProvider.
  destruct (ProviderFactory.config_of provider) as [config|] eqn:C.
  - split; [apply array_includes_In|].
    intros V key url. eexists. split; [reflexivity|].
    cbn [provider_class]. apply array_includes_In in V.
    unfold ProviderFactory.config_of, ProviderFactory.PROVIDER_CONFIGS in C.
    cbn [JsMap.get] in C. revert C. by_provider provider;
      intros C; inversion C; subst config; cbn [ProviderFactory.class];
      cbn [ProviderFactory.models] in V; apply array_includes_In;
      simpl in V |- *; intuition.
  - split; [split; [discriminate | intros []] | discriminate].
Qed.

(** X17: the table of the providers that the pages show has the
    providers of the factory, in the same order, and gives for each of
    them its own name, the models that the factory accepts for it, and
    the capabilities that its adapter declares. *)
Theorem provider_table_agrees :
  map fst LLM_PROVIDERS = ProviderFactory.getAvailableProviders
  /\ forall provider info,
      In (provider, info) LLM_PROVIDERS ->
      info_name info = provider
      /\ info_models info = ProviderFactory.getAvailableModels provider
      /\ exists config,
          ProviderFactory.config_of provider = Some config
          /\ provider_name (ProviderFactory.class config) = provider
          /\ info_supportsAttachments info
             = supportsAttachments (ProviderFactory.class config)
          /\ info_supportsVision info
             = supportsVision (ProviderFactory.class config).
Proof.
  split; [reflexivity|].
  intros provider info [I|[I|[I|[]]]]; inversion I; subst provider info;
    (split; [reflexivity | split; [reflexivity|]]);
    eexists; (split; [reflexivity | repeat split; reflexivity]).
Qed.

(** ** The limiter of a provider *)

(** X18: the limiter of a provider allows 50 concurrent calls for
    "openai", 20 for "anthropic", 30 for "gemini" and 5 for every other
    name, except the names of the properties of [Object.prototype], for
    which the lookup gives an inherited property and the limiter cannot
    be created. *)
Theorem limiter_concurrency (provider : jsstring) :
  (array_includes Object_prototype_properties provider = false ->
   createProviderRateLimiter provider
   = Returns (if Js.eqb provider (str "openai") then 50
              else if Js.eqb provider (str "anthropic") then 20
              else if Js.eqb provider (str "gemini") then 30
              else 5))
  /\ (array_includes Object_prototype_properties provider = true ->
      exists e, createProviderRateLimiter provider = Throws e).
Proof.
  unfold createProviderRateLimiter, getRateLimit, RATE_LIMITS.
  cbn [JsMap.get]. rewrite !(Js.eqb_sym provider).
  by_provider provider; try (split; [reflexivity | discriminate]).
  split; intros ->; [reflexivity | eexists; reflexivity].
Qed.

(** ** The import of submissions *)

Lemma array_includes_not_In (l : list jsstring) (x : jsstring) :
  array_includes l x = false <-> ~ In x l.
Proof.
  rewrite <- array_includes_In. destruct (array_includes l x); split;
    congruence.
Qed.

(** One turn of the loop that removes the repetitions. *)
Lemma distinct_from (values : list jsstring) :
  forall seen,
    NoDup seen ->
    let kept :=
      fold_left
        (fun seen v => if array_includes seen v then seen else seen ++ [v])
        values seen in
    NoDup kept /\ forall x, In x kept <-> In x seen \/ In x values.
Proof.
  induction values as [|v values IH]; intros seen N; simpl.
  - split; [exact N | tauto].
  - destruct (array_includes seen v) eqn:S.
    + apply array_includes_In in S. destruct (IH seen N) as [N' I'].
      split; [exact N'|]. intros x. rewrite I'.
      intuition (subst; auto).
    + apply array_includes_not_In in S.
      assert (N1 : NoDup (seen ++ [v])).
      { apply NoDup_app; [exact N | repeat constructor; intros [] |].
        intros x I [<-|[]]. now apply S. }
      destruct (IH _ N1) as [N' I']. split; [exact N'|].
      intros x. rewrite I', in_app_iff. simpl. tauto.
Qed.

Lemma distinct_NoDup (values : list jsstring) :
  NoDup (JsonParser.distinct values)
  /\ forall x, In x (JsonParser.distinct values) <-> In x values.
Proof.
  destruct (distinct_from values (NoDup_nil jsstring)) as [N I].
  split; [exact N|]. intros x. rewrite (I x). simpl. tauto.
Qed.

Section ImportProperties.
Variable w : JsonParser.World.

Lemma questions_loop (qs : list JsonParser.SubmissionQuestion) :
  forall st,
    let st' := fold_left (JsonParser.add_question w) qs st in
    JsonParser.st_questionTemplateSet st'
    = fold_left
        (fun seen v => if array_includes seen v then seen else seen ++ [v])
        (map (fun q => JsonParser.id (JsonParser.data q)) qs)
        (JsonParser.st_questionTemplateSet st)
    /\ JsonParser.st_submissions st' = JsonParser.st_submissions st
    /\ JsonParser.st_answers st' = JsonParser.st_answers st
    /\ JsonParser.st_answerQueues st' = JsonParser.st_answerQueues st
    /\ JsonParser.uuids_drawn st' = JsonParser.uuids_drawn st
    /\ (map JsonParser.question_template_id (JsonParser.st_questionTemplates st)
        = JsonParser.st_questionTemplateSet st ->
        map JsonParser.question_template_id
            (JsonParser.st_questionTemplates st')
        = JsonParser.st_questionTemplateSet st')
    /\ exists added,
        JsonParser.st_questionTemplates st'
        = JsonParser.st_questionTemplates st ++ added.
Proof.
  induction qs as [|q qs IH]; intros st; simpl.
  - conjuncts; auto. exists []. now rewrite app_nil_r.
  - specialize (IH (JsonParser.add_question w st q)). cbn zeta in IH.
    destruct IH as (S & Sub & A & Q & U & T & added & Ad).
    unfold JsonParser.add_question in S, Sub, A, Q, U, T, Ad |- *.
    cbn zeta in *.
    destruct (array_includes (JsonParser.st_questionTemplateSet st)
                             (JsonParser.id (JsonParser.data q)));
      cbn [negb] in *; simpl in S, Sub, A, Q, U, T, Ad.
    + conjuncts; auto. now exists added.
    + conjuncts; auto.
      * intros H. apply T. rewrite map_app, H. reflexivity.
      * eexists. rewrite Ad, <- app_assoc. reflexivity.
Qed.

Lemma answers_loop (submission : JsonParser.ValidatedSubmission)
  (entries : list (jsstring * json)) :
  forall st,
    let st' := fold_left (JsonParser.add_answer w submission) entries st in
    JsonParser.st_questionTemplateSet st'
    = JsonParser.st_questionTemplateSet st
    /\ JsonParser.st_questionTemplates st' = JsonParser.st_questionTemplates st
    /\ JsonParser.st_submissions st' = JsonParser.st_submissions st
    /\ (consistent w st -> consistent w st')
    /\ exists added,
        JsonParser.st_answers st' = JsonParser.st_answers st ++ added
        /\ JsonParser.st_answerQueues st'
           = JsonParser.st_answerQueues st
               ++ map (fun a =>
                         {| JsonParser.aq_answer_id := JsonParser.answer_id a;
                            JsonParser.queue_id :=
                              JsonParser.queueId submission |})
                      added
        /\ Forall
             (fun a =>
                JsonParser.a_submission_id a = JsonParser.sub_id submission
                /\ In (JsonParser.a_question_template_id a,
                       JsonParser.answer_value a) entries)
             added.
Proof.
  induction entries as [|[questionId answerData] entries IH]; intros st;
    simpl.
  - conjuncts; auto. exists []. now rewrite !app_nil_r.
  - specialize (IH (JsonParser.add_answer w submission st
                      (questionId, answerData))).
    cbn zeta in IH. destruct IH as (S & T & Sub & C & added & A & Q & F).
    unfold JsonParser.add_answer in S, T, Sub, C, A, Q |- *.
    destruct (find _ (JsonParser.st_questionTemplates st)) as [qt|] eqn:Fd;
      simpl in S, T, Sub, C, A, Q.
    + conjuncts; auto.
      * intros (I1 & I2 & I3 & I4 & I5). apply C.
        unfold consistent.
        cbn [JsonParser.st_questionTemplates JsonParser.st_questionTemplateSet
             JsonParser.st_answers JsonParser.st_answerQueues
             JsonParser.uuids_drawn].
        repeat split; auto.
        -- rewrite map_app, I3, seq_S, map_app. reflexivity.
        -- rewrite !map_app, I4. reflexivity.
        -- apply Forall_app. split; [exact I5|]. constructor; [|constructor].
           simpl. apply find_some in Fd. destruct Fd as [Iq Eq].
           apply Js.eqb_eq in Eq. exists qt. auto.
      * eexists. rewrite A, Q, <- !app_assoc. split; [reflexivity|].
        split; [reflexivity|]. constructor.
        -- simpl. auto.
        -- eapply Forall_impl; [|exact F]. simpl. intros a [H1 H2]. auto.
    + conjuncts; auto. exists added. split; [exact A|]. split; [exact Q|].
      eapply Forall_impl; [|exact F]. simpl. intros a [H1 H2]. auto.
Qed.

Lemma submission_turn (st : JsonParser.State)
  (submission : JsonParser.ValidatedSubmission) :
  let st' := JsonParser.add_submission w st submission in
  (consistent w st -> consistent w st')
  /\ JsonParser.st_questionTemplateSet st'
     = fold_left
         (fun seen v => if array_includes seen v then seen else seen ++ [v])
         (map (fun q => JsonParser.id (JsonParser.data q))
              (JsonParser.questions submission))
         (JsonParser.st_questionTemplateSet st)
  /\ map JsonParser.submission_id (JsonParser.st_submissions st')
     = map JsonParser.submission_id (JsonParser.st_submissions st)
         ++ [JsonParser.sub_id submission]
  /\ exists added,
      JsonParser.st_answers st' = JsonParser.st_answers st ++ added
      /\ JsonParser.st_answerQueues st'
         = JsonParser.st_answerQueues st
             ++ map (fun a =>
                       {| JsonParser.aq_answer_id := JsonParser.answer_id a;
                          JsonParser.queue_id :=
                            JsonParser.queueId submission |})
                    added
      /\ Forall
           (fun a =>
              JsonParser.a_submission_id a = JsonParser.sub_id submission
              /\ In (JsonParser.a_question_template_id a,
                     JsonParser.answer_value a)
                    (JsonParser.answers_entries submission))
           added.
Proof.
  unfold JsonParser.add_submission. cbn zeta.
  set (st1 := {| JsonParser.st_submissions := _ |}).
  destruct (questions_loop (JsonParser.questions submission) st1)
    as (S & Sub & A & Q & U & T & addedT & AdT).
  set (st2 := fold_left (JsonParser.add_question w) _ st1) in *.
  destruct (answers_loop submission (JsonParser.answers_entries submission)
                         st2)
    as (S' & T' & Sub' & C & added & A' & Q' & F).
  set (st3 := fold_left (JsonParser.add_answer w submission) _ st2) in *.
  split; [|split; [|split]].
  - intros (I1 & I2 & I3 & I4 & I5). apply C.
    unfold consistent. rewrite A, Q, U. subst st1. simpl.
    repeat split; auto.
    + rewrite S. simpl.
      now apply (distinct_from
                   (map (fun q => JsonParser.id (JsonParser.data q))
                        (JsonParser.questions submission))).
    + rewrite AdT. simpl. eapply Forall_impl; [|exact I5]. simpl.
      intros a (qt & Iq & H1 & H2). exists qt.
      rewrite in_app_iff. auto.
  - rewrite S', S. reflexivity.
  - rewrite Sub', Sub. subst st1. simpl. now rewrite map_app.
  - exists added. rewrite A', Q', A, Q. subst st1. simpl. auto.
Qed.

Lemma import_loop (submissions : list JsonParser.ValidatedSubmission) :
  forall st,
    let st' := fold_left (JsonParser.add_submission w) submissions st in
    (consistent w st -> consistent w st')
    /\ JsonParser.st_questionTemplateSet st'
       = fold_left
           (fun seen v => if array_includes seen v then seen else seen ++ [v])
           (question_ids submissions)
           (JsonParser.st_questionTemplateSet st)
    /\ map JsonParser.submission_id (JsonParser.st_submissions st')
       = map JsonParser.submission_id (JsonParser.st_submissions st)
           ++ map JsonParser.sub_id submissions
    /\ exists added : list (JsonParser.Answer * JsonParser.ValidatedSubmission),
        JsonParser.st_answers st' = JsonParser.st_answers st ++ map fst added
        /\ JsonParser.st_answerQueues st'
           = JsonParser.st_answerQueues st
               ++ map (fun p =>
                         {| JsonParser.aq_answer_id :=
                              JsonParser.answer_id (fst p);
                            JsonParser.queue_id :=
                              JsonParser.queueId (snd p) |})
                      added
        /\ Forall
             (fun p =>
                In (snd p) submissions
                /\ JsonParser.a_submission_id (fst p)
                   = JsonParser.sub_id (snd p)
                /\ In (JsonParser.a_question_template_id (fst p),
                       JsonParser.answer_value (fst p))
                      (JsonParser.answers_entries (snd p)))
             added.
Proof.
  induction submissions as [|submission submissions IH]; intros st; simpl.
  - conjuncts; auto; [now rewrite app_nil_r|].
    exists []. simpl. now rewrite !app_nil_r.
  - destruct (submission_turn st submission)
      as (C & S & Sub & added & A & Q & F).
    specialize (IH (JsonParser.add_submission w st submission)).
    cbn zeta in IH. destruct IH as (C' & S' & Sub' & added' & A' & Q' & F').
    conjuncts; auto.
    + rewrite S', S. unfold question_ids. simpl.
      now rewrite fold_left_app.
    + rewrite Sub', Sub, <- app_assoc. reflexivity.
    + exists (map (fun a => (a, submission)) added ++ added').
      rewrite A', Q', A, Q, !map_app, !map_map, <- !app_assoc. simpl.
      rewrite map_id. split; [reflexivity|]. split; [reflexivity|].
      apply Forall_app. split.
      * apply Forall_map. eapply Forall_impl; [|exact F]. simpl.
        intros a [H1 H2]. auto.
      * eapply Forall_impl; [|exact F']. simpl. intros p (H1 & H2 & H3).
        auto.
Qed.

Lemma initial_consistent : consistent w JsonParser.initial.
Proof.
  unfold consistent. simpl. repeat split; constructor.
Qed.

(** X19: the question templates of an import have the identifiers of the
    questions of the submissions, each once, at the place of its first
    occurrence: a question seen again, in the same submission or in a
    later one, adds no template. *)
Theorem templates_once (submissions : list JsonParser.ValidatedSubmission) :
  let parsed := JsonParser.parseSubmissionData_validated w submissions in
  map JsonParser.question_template_id (JsonParser.question_templates parsed)
  = JsonParser.distinct (question_ids submissions)
  /\ NoDup (map JsonParser.question_template_id
                (JsonParser.question_templates parsed)).
Proof.
  cbn zeta. unfold JsonParser.parseSubmissionData_validated. cbn zeta.
  cbn [JsonParser.question_templates].
  destruct (import_loop submissions JsonParser.initial)
    as (C & S & _). cbn zeta in C, S.
  destruct (C initial_consistent) as (I1 & I2 & _).
  rewrite I1. split; [exact S | exact I2].
Qed.

(** X20: every answer of an import refers to a question template of the
    import, with the revision of that template, and comes from an entry
    of the answers of the submission that it names; an entry whose
    question has no template yet gives no answer. *)
Theorem answers_refer_to_templates
  (submissions : list JsonParser.ValidatedSubmission) (a : JsonParser.Answer) :
  let parsed := JsonParser.parseSubmissionData_validated w submissions in
  In a (JsonParser.answers parsed) ->
  (exists qt,
      In qt (JsonParser.question_templates parsed)
      /\ JsonParser.question_template_id qt
         = JsonParser.a_question_template_id a
      /\ JsonParser.revision qt = JsonParser.question_revision a)
  /\ exists submission,
      In submission submissions
      /\ JsonParser.a_submission_id a = JsonParser.sub_id submission
      /\ In (JsonParser.a_question_template_id a, JsonParser.answer_value a)
            (JsonParser.answers_entries submission).
Proof.
  cbn zeta. unfold JsonParser.parseSubmissionData_validated. cbn zeta.
  cbn [JsonParser.question_templates JsonParser.answers].
  destruct (import_loop submissions JsonParser.initial)
    as (C & _ & _ & added & A & _ & F). cbn zeta in C, A.
  destruct (C initial_consistent) as (_ & _ & _ & _ & I5).
  intros I. split.
  - rewrite Forall_forall in I5. exact (I5 a I).
  - rewrite A in I. simpl in I. apply in_map_iff in I.
    destruct I as ([a' submission] & <- & I). rewrite Forall_forall in F.
    destruct (F _ I) as (H1 & H2 & H3). exists submission. auto.
Qed.

(** X21: the answers of an import have the identifiers that were drawn,
    in the order of the draws; the rows that put the answers in queues go
    with the answers, one row for each answer, in the same order, with the
    queue of the submission of the answer; and there is one submission row
    for each submission of the file, in the order of the file. *)
Theorem answers_and_queues (submissions : list JsonParser.ValidatedSubmission) :
  let parsed := JsonParser.parseSubmissionData_validated w submissions in
  map JsonParser.answer_id (JsonParser.answers parsed)
  = map (JsonParser.randomUUID w)
        (seq 0 (List.length (JsonParser.answers parsed)))
  /\ map JsonParser.aq_answer_id (JsonParser.answer_queues parsed)
     = map JsonParser.answer_id (JsonParser.answers parsed)
  /\ (exists sources,
         Forall (fun submission => In submission submissions) sources
         /\ map JsonParser.a_submission_id (JsonParser.answers parsed)
            = map JsonParser.sub_id sources
         /\ map JsonParser.queue_id (JsonParser.answer_queues parsed)
            = map JsonParser.queueId sources)
  /\ map JsonParser.submission_id (JsonParser.submissions parsed)
     = map JsonParser.sub_id submissions.
Proof.
  cbn zeta. unfold JsonParser.parseSubmissionData_validated. cbn zeta.
  cbn [JsonParser.question_templates JsonParser.answers
       JsonParser.answer_queues JsonParser.submissions].
  destruct (import_loop submissions JsonParser.initial)
    as (C & _ & Sub & added & A & Q & F). cbn zeta in C, A, Q, Sub.
  destruct (C initial_consistent) as (_ & _ & I3 & I4 & _).
  split; [|split; [exact I4 | split; [|exact Sub]]].
  - rewrite I3. f_equal. f_equal.
    apply (f_equal (@List.length jsstring)) in I3.
    now rewrite !length_map, length_seq in I3.
  - exists (map snd added). rewrite A, Q. simpl.
    rewrite !map_map. repeat split.
    + apply Forall_map. eapply Forall_impl; [|exact F]. simpl. tauto.
    + apply map_ext_in. intros p I. rewrite Forall_forall in F.
      now destruct (F p I) as (_ & H & _).
Qed.

(** X22: the statistics of the import of a file count one submission
    for each submission of the file and one template for each distinct
    question; the queues that they list are queues of submissions of the
    file, each listed once, and they are no more than the answers. *)
Theorem import_stats_of_file
  (submissions : list JsonParser.ValidatedSubmission) :
  let stats :=
    JsonParser.getImportStats
      (JsonParser.parseSubmissionData_validated w submissions) in
  JsonParser.submissionCount stats = List.length submissions
  /\ JsonParser.questionTemplateCount stats
     = List.length (JsonParser.distinct (question_ids submissions))
  /\ NoDup (JsonParser.queueIds stats)
  /\ (forall q,
         In q (JsonParser.queueIds stats) ->
         exists submission,
           In submission submissions /\ JsonParser.queueId submission = q)
  /\ List.length (JsonParser.queueIds stats) <= JsonParser.answerCount stats.
Proof.
  cbn zeta. unfold JsonParser.getImportStats. cbn zeta.
  cbn [JsonParser.queueIds JsonParser.answerCount JsonParser.submissionCount
       JsonParser.questionTemplateCount].
  unfold JsonParser.parseSubmissionData_validated. cbn zeta.
  cbn [JsonParser.question_templates JsonParser.answers
       JsonParser.answer_queues JsonParser.submissions].
  destruct (import_loop submissions JsonParser.initial)
    as (C & S & Sub & added & A & Q & F). cbn zeta in C, S, A, Q, Sub.
  destruct (C initial_consistent) as (I1 & _ & _ & I4 & _).
  change (JsonParser.st_submissions JsonParser.initial)
    with (@nil JsonParser.Submission) in Sub.
  change (JsonParser.st_answerQueues JsonParser.initial)
    with (@nil JsonParser.AnswerQueue) in Q.
  change (JsonParser.st_questionTemplateSet JsonParser.initial)
    with (@nil jsstring) in S.
  cbn [map app] in Sub, Q.
  set (st := fold_left (JsonParser.add_submission w) submissions
                       JsonParser.initial) in *.
  destruct (distinct_NoDup
              (map JsonParser.queue_id (JsonParser.st_answerQueues st)))
    as [N I].
  conjuncts.
  - apply (f_equal (@List.length jsstring)) in Sub.
    now rewrite !length_map in Sub.
  - rewrite <- (length_map JsonParser.question_template_id), I1.
    now rewrite S.
  - exact N.
  - intros q Iq. apply I in Iq. rewrite Q in Iq. simpl in Iq.
    rewrite map_map in Iq. apply in_map_iff in Iq.
    destruct Iq as (p & <- & Ip). rewrite Forall_forall in F.
    destruct (F p Ip) as (H & _). now exists (snd p).
  - rewrite <- (length_map JsonParser.answer_id), <- I4, length_map.
    rewrite <- (length_map JsonParser.queue_id).
    apply NoDup_incl_length; [exact N|]. intros x. apply I.
Qed.

End ImportProperties.

(** X23: the statistics list the queues of the rows of [answer_queues]
    once each, at the place of their first occurrence: a queue is listed
    exactly when a row names it. *)
Theorem import_stats_queues (d : JsonParser.ParsedSubmissionData) :
  let stats := JsonParser.getImportStats d in
  NoDup (JsonParser.queueIds stats)
  /\ (forall q,
         In q (JsonParser.queueIds stats)
         <-> In q (map JsonParser.queue_id (JsonParser.answer_queues d)))
  /\ List.length (JsonParser.queueIds stats)
     <= List.length (JsonParser.answer_queues d).
Proof.
  cbn zeta. unfold JsonParser.getImportStats. cbn zeta.
  cbn [JsonParser.queueIds].
  destruct (distinct_NoDup
              (map JsonParser.queue_id (JsonParser.answer_queues d)))
    as [N I].
  conjuncts; [exact N | exact I |].
  rewrite <- (length_map JsonParser.queue_id).
  apply NoDup_incl_length; [exact N|]. intros x. apply I.
Qed.

(** ** The prompt of a task *)

Section TaskPrompt.
Context {E : Engine}.


End TaskPrompt.

(** * The further properties on examples *)

Section FurtherExamples.
#[local] Existing Instance Reference.engine.
Import Example.

(** X1, witness: the first answer of the run has the first and the third
    attachment, although the query reports an error. *)
Lemma task_sees_its_attachments_witness :
  exists d,
    fetchEvaluationData Sample.run_with_attachments (str "queue_1")
    = Returns d
    /\ attachments (task_context (attachmentsByAnswer d) (task_of "a1" "j1"))
       = Some [Sample.photo; Sample.scan].
Proof.
  eexists. split; [reflexivity|].
  refine (task_sees_its_attachments Sample.run_with_attachments
            (str "queue_1") (task_of "a1" "j1") eq_refl _).
  vm_compute. discriminate.
Defined.

(** X2, witness: the three tasks of the run of the examples. *)
Lemma tasks_built_witness :
  exists tasks,
    buildEvaluationTasks (answer_judges_response run)
                         [answer "a1"; answer "a2"; answer "a3"]
    = Returns tasks
    /\ List.length tasks = 3.
Proof.
  destruct (tasks_built (answer_judges_response run)
                        [answer "a1"; answer "a2"; answer "a3"] eq_refl)
    as (tasks & B & L & _).
  exists tasks. split; [exact B | exact L].
Defined.

(** X3, witness: the group of OpenAI in the run of the examples. *)
Lemma groups_by_provider_witness :
  exists m,
    groupTasksByProvider works = Returns m
    /\ JsMap.get m (str "openai")
       = Some [ (task_of "a1" "j1", task_world run 0);
                (task_of "a2" "j1", task_world run 1) ]
    /\ JsMap.get m (str "gemini") = None.
Proof.
  eexists. split; [reflexivity|]. split.
  - exact (groups_by_provider works eq_refl (str "openai")).
  - reflexivity.
Defined.

(** X4, witness: the second judge is lost while grouping. *)
Lemma judge_lost_while_grouping_witness :
  executeEvaluations client
    ([(task_of "a1" "j1", task_world run 0)]
       ++ Sample.judge_lost_when_grouping
       :: [(task_of "a3" "j2", task_world run 2)])
    (JsMap.empty _)
  = Throws (ThrownError (str "Failed to fetch judge j1: connection reset")).
Proof.
  refine (proj1 (judge_lost_while_grouping client (JsMap.empty _)
                   [(task_of "a1" "j1", task_world run 0)]
                   [(task_of "a3" "j2", task_world run 2)]
                   Sample.judge_lost_when_grouping _ _)).
  - intros earlier [<-|[]]. exists judge_openai. reflexivity.
  - reflexivity.
Defined.

(** X5, witness: answers, and no judge assigned. *)
Lemma run_without_tasks_witness :
  runEvaluations client Sample.run_unassigned (str "queue_1")
  = Returns zero_summary.
Proof.
  apply run_without_tasks; [reflexivity|].
  right. split; reflexivity.
Defined.

(** X6, witness: the query of the assignments fails. *)
Lemma run_setup_errors_witness :
  runEvaluations client Sample.run_no_judges (str "queue_1")
  = Throws (ThrownError (str "Failed to fetch judges: permission denied")).
Proof.
  refine (proj2 (run_setup_errors client Sample.run_no_judges (str "queue_1")
                   (str "permission denied")) eq_refl _ eq_refl).
  vm_compute. discriminate.
Defined.

(** X7, witness: the first two tasks of the run; the network is down for
    the second, and both are completed. *)
Lemma all_stored_all_completed_witness :
  executeEvaluations client
    [ (task_of "a1" "j1", task_world run 0);
      (task_of "a2" "j1", task_world run 1) ] (JsMap.empty _)
  = Returns {| total := 2; completed := 2; failed := 0; errors := [] |}.
Proof.
  apply (all_stored_all_completed client
           [ (task_of "a1" "j1", task_world run 0);
             (task_of "a2" "j1", task_world run 1) ] (JsMap.empty _)).
  intros work [<-|[<-|[]]];
    (split; [exists judge_openai; split; reflexivity|]);
    (split; [exists judge_openai; reflexivity | reflexivity]).
Defined.

(** X9, witness: a verdict outside the three, and no reasoning. *)
Lemma validation_reasoning_visible_witness :
  parseEvaluationResponse Sample.odd_result
  = Returns Sample.odd_result_validated
  /\ exists v s,
      Sample.odd_result_validated
      = {| verdict := JString v; reasoning := JString s |}
      /\ has_visible_unit s = true.
Proof.
  assert (H : parseEvaluationResponse Sample.odd_result
              = Returns Sample.odd_result_validated)
    by (vm_compute; reflexivity).
  split; [exact H|].
  destruct (validation_reasoning_visible _ H) as (v & s & R & V & _).
  exists v, s. split; [exact R | exact V].
Defined.

(** X10, witness: the same result, validated again. *)
Lemma validation_idempotent_witness :
  parseEvaluationResponse Sample.odd_result_validated
  = Returns Sample.odd_result_validated.
Proof.
  apply (@validation_idempotent _ Sample.odd_result).
  vm_compute. reflexivity.
Defined.

(** X11, witness: the network is down. *)
Lemma model_failure_reported_witness :
  executeEvaluation client world_down judge_openai context_sky
  = {| verdict := JString (str "inconclusive");
       reasoning :=
         JString (str "Evaluation failed: OpenAI evaluation failed: network down") |}.
Proof.
  refine (model_failure_reported client world_down judge_openai context_sky
            (p := openai_adapter) (e := ThrownError (str "network down")) _ _).
  - vm_compute. reflexivity.
  - vm_compute. reflexivity.
Defined.

(** X12, witness: the vendor answers with an object that says "pass". *)
Lemma json_reply_accepted_witness :
  executeEvaluation client world_pass judge_openai context_sky
  = {| verdict := JString (str "pass");
       reasoning := JString (str "Observed on a clear day.") |}.
Proof.
  refine (json_reply_accepted client world_pass judge_openai context_sky
            (p := openai_adapter)
            (r := {| text := verdict_object "pass" "Observed on a clear day.";
                     sdk_usage := None |})
            (jsonMatch := verdict_object "pass" "Observed on a clear day.")
            (parsed := JObject
                         [ (str "verdict", JString (str "pass"));
                           (str "reasoning",
                            JString (str "Observed on a clear day.")) ])
            _ _ _ _ _ _ _ _);
    vm_compute; reflexivity.
Defined.

(** X13, witness: the vendor answers in prose with the word "correct". *)
Lemma prose_reply_scanned_witness :
  executeEvaluation client Sample.world_prose judge_openai context_sky
  = {| verdict := JString (str "pass");
       reasoning := JString (str "The answer looks correct to me.") |}.
Proof.
  refine (prose_reply_scanned client Sample.world_prose judge_openai
            context_sky (p := openai_adapter)
            (r := {| text := str "The answer looks correct to me.";
                     sdk_usage := None |}) _ _ _);
    vm_compute; reflexivity.
Defined.


(** X15, witness: the empty key and the empty URL; the client of the SDK
    gets the key of the environment and no URL. *)
Lemma factory_creates_listed_witness :
  exists adapter,
    createLLMProvider Sample.bare_config = Returns adapter
    /\ provider_name (provider_class adapter) = str "openai"
    /\ client_settings env adapter
       = {| settings_apiKey := Some (str "sk-test");
            settings_baseURL := None |}.
Proof.
  destruct (proj1 (factory_creates_listed Sample.bare_config eq_refl))
    as (adapter & C & N & S).
  - vm_compute. auto.
  - exists adapter. split; [exact C|]. split; [exact N | exact (S env)].
Defined.

(** X16, witness: a model of OpenAI. *)
Lemma accepted_models_listed_witness :
  In (str "gpt-4o") (ProviderFactory.getAvailableModels (str "openai"))
  /\ validateModel OpenAIProvider (str "gpt-4o") = true.
Proof.
  destruct (accepted_models_listed (str "openai") (str "gpt-4o") eq_refl)
    as [L A].
  split; [apply L; reflexivity|].
  destruct (A eq_refl [] None) as (adapter & C & V).
  inversion C; subst adapter. exact V.
Defined.

(** X20, witness: the answer to the first question of the file. *)
Lemma answers_refer_to_templates_witness :
  In Sample.imported_answer
     (JsonParser.answers
        (JsonParser.parseSubmissionData_validated Sample.import_world
           Sample.import_file))
  /\ exists qt,
      In qt (JsonParser.question_templates
               (JsonParser.parseSubmissionData_validated Sample.import_world
                  Sample.import_file))
      /\ JsonParser.question_template_id qt = str "q1"
      /\ JsonParser.revision qt = Num false 2 0.
Proof.
  assert (I : In Sample.imported_answer
                 (JsonParser.answers
                    (JsonParser.parseSubmissionData_validated
                       Sample.import_world Sample.import_file)))
    by (vm_compute; auto).
  split; [exact I|].
  exact (proj1 (answers_refer_to_templates Sample.import_world
                  Sample.import_file Sample.imported_answer I)).
Defined.

End FurtherExamples.
